(** * The Game of Hog: a shallow embedding of [hog.py]

    The simulator ([roll_dice], [take_turn], [free_bacon], [select_dice],
    [other], [play]) and the experiment harness ([make_averaged],
    [max_scoring_num_rolls], [winner], [average_win_rate]) are transcribed
    as functions in a state-and-exception monad.  Python integers are [Z];
    Python floats are IEEE 754 binary64 numbers ([spec_float] with the
    precision [prec = 53] and the maximal exponent [emax = 1024]); [while]
    loops are fixpoints driven by a fuel argument, which every function
    that loops (or calls one that does) receives as its first argument. *)

From Stdlib Require Import ZArith List Bool String Lia Permutation.
From Stdlib Require Import Floats.
Import ListNotations.
Local Open Scope string_scope.
Local Open Scope list_scope.
Local Open Scope Z_scope.

Set Implicit Arguments.

(** ** Python values and exceptions *)

(** The dynamically typed values a strategy may hand to [take_turn].  The
    test [type(num_rolls) == int] succeeds on [VInt] only ([bool] is a
    distinct type for [type(...) ==]). *)
Inductive value : Type :=
| VInt (n : Z)
| VBool (b : bool)
| VFloat (f : spec_float)
| VStr (s : string)
| VNone.

Inductive exn : Type :=
| AssertionError (msg : string)
| ZeroDivisionError
| OverflowError.

(** ** Floats

    [x / y] on two Python integers is the correctly rounded quotient
    ([SFdiv] computes it from the exact integer operands), a
    [ZeroDivisionError] when [y] is zero and an [OverflowError] when the
    quotient is beyond the binary64 range.  An integer operand of a float
    operation is first converted with [float_of_int]. *)

Definition pyfloat : Type := spec_float.

Definition float_of_int (z : Z) : pyfloat :=
  binary_normalize prec emax z 0 false.

Definition int_operand (z : Z) : spec_float :=
  match z with
  | Z0 => S754_zero false
  | Zpos p => S754_finite false p 0
  | Zneg p => S754_finite true p 0
  end.

Definition float_sub (x y : pyfloat) : pyfloat := SFsub prec emax x y.
Definition float_add (x y : pyfloat) : pyfloat := SFadd prec emax x y.
Definition float_div (x y : pyfloat) : pyfloat := SFdiv prec emax x y.
Definition float_lt (x y : pyfloat) : bool := SFltb x y.
Definition float_le (x y : pyfloat) : bool := SFleb x y.

(** ** The world: dice state, a log of dice outcomes, standard output *)

Section Hog.

(** [DS] is whatever the dice sources keep between calls: the state of the
    pseudo-random generator, or the cursors of scripted dice. *)
Variable DS : Type.

(** A dice source: a zero-argument callable returning an integer outcome
    and advancing its internal state. *)
Definition Dice : Type := DS -> Z * DS.

(** [rolled] records every outcome a dice source has returned, most recent
    first; [printed] records the lines of [max_scoring_num_rolls], most
    recent first. *)
Record World : Type := mkWorld {
  rng : DS;
  rolled : list Z;
  printed : list (Z * pyfloat)
}.

Inductive outcome (A : Type) : Type :=
| Ret (a : A) (w : World)
| Raise (e : exn) (w : World)
| OutOfFuel.

Arguments Raise {A} e w.
Arguments OutOfFuel {A}.

Definition M (A : Type) : Type := World -> outcome A.

(** What a caller observes of an outcome: the value returned, and the
    lines printed, oldest first. *)
Definition returned {A} (o : outcome A) : option A :=
  match o with
  | Ret a _ => Some a
  | _ => None
  end.

Definition output {A} (o : outcome A) : list (Z * pyfloat) :=
  match o with
  | Ret _ w | Raise _ w => rev (printed w)
  | OutOfFuel => []
  end.

Definition ret {A} (a : A) : M A := fun w => Ret a w.

Definition bind {A B} (m : M A) (k : A -> M B) : M B :=
  fun w =>
    match m w with
    | Ret a w' => k a w'
    | Raise e w' => Raise e w'
    | OutOfFuel => OutOfFuel
    end.

Definition raise {A} (e : exn) : M A := fun w => Raise e w.

Definition diverge {A} : M A := fun _ => OutOfFuel.

Definition assert_ (b : bool) (msg : string) : M unit :=
  if b then ret tt else raise (AssertionError msg).

(** One invocation [dice()]. *)
Definition call (dice : Dice) : M Z :=
  fun w =>
    let (v, s) := dice (rng w) in
    Ret v {| rng := s; rolled := v :: rolled w; printed := printed w |}.

Definition print (roll : Z) (ave_value : pyfloat) : M unit :=
  fun w =>
    Ret tt {| rng := rng w; rolled := rolled w;
              printed := (roll, ave_value) :: printed w |}.

Notation "x <- m ;; k" := (bind m (fun x => k))
  (at level 61, m at next level, right associativity).
Notation "m ;;; k" := (bind m (fun _ => k))
  (at level 61, right associativity).

(** ** Phase 1: the simulator *)

Definition GOAL_SCORE : Z := 100.

(** The [while num_rolls != 0] loop of [roll_dice], on the loop variables
    [total], [pig_out], [num_rolls]. *)
Fixpoint roll_loop (fuel : nat) (dice : Dice)
    (total : Z) (pig_out : bool) (num_rolls : Z) : M (Z * bool) :=
  match fuel with
  | O => diverge
  | S fuel' =>
      if negb (num_rolls =? 0) then
        single_roll <- call dice ;;
        let pig_out := if single_roll =? 1 then true else pig_out in
        roll_loop fuel' dice (total + single_roll) pig_out (num_rolls - 1)
      else ret (total, pig_out)
  end.

Definition roll_dice (fuel : nat) (num_rolls : value) (dice : Dice) : M Z :=
  match num_rolls with
  | VInt n =>
      assert_ (n >? 0) "Must roll at least once." ;;;
      r <- roll_loop fuel dice 0 false n ;;
      let '(total, pig_out) := r in
      if pig_out then ret 1 else ret total
  | _ => raise (AssertionError "num_rolls must be an integer.")
  end.

Definition free_bacon (score : Z) : Z :=
  Z.max (score / 10) (score mod 10) + 1.

Definition take_turn (fuel : nat) (num_rolls : value) (opponent_score : Z)
    (dice : Dice) : M Z :=
  match num_rolls with
  | VInt n =>
      assert_ (n >=? 0) "Cannot roll a negative number of dice." ;;;
      assert_ (n <=? 10) "Cannot roll more than 10 dice." ;;;
      assert_ (opponent_score <? 100) "The game should be over." ;;;
      if n =? 0 then ret (free_bacon opponent_score)
      else roll_dice fuel num_rolls dice
  | _ => raise (AssertionError "num_rolls must be an integer.")
  end.

(** The two dice of module [dice], which is not part of the sources. *)
Variable four_sided six_sided : Dice.

Definition select_dice (score opponent_score : Z) : Dice :=
  if (opponent_score + score) mod 7 =? 0 then four_sided else six_sided.

Definition other (who : Z) : Z := 1 - who.

(** A strategy maps (own score, opponent's score) to a roll count. *)
Definition Strategy : Type := Z -> Z -> value.

(** Lines 99-100 of [play]: the conditional exchange of the two scores. *)
Definition swap_rule (score opponent_score : Z) : Z * Z :=
  if (score =? 2 * opponent_score) || (opponent_score =? 2 * score)
  then (opponent_score, score)
  else (score, opponent_score).

(** Line 101 of [play]: [score, opponent_score = opponent_score, score]. *)
Definition rotate (p : Z * Z) : Z * Z := (snd p, fst p).

(** The [while max(score, opponent_score) < goal] loop of [play]; it
    returns the loop variables [who], [score], [opponent_score]. *)
Fixpoint play_loop (fuel : nat) (strategy0 strategy1 : Strategy) (goal : Z)
    (who score opponent_score : Z) : M (Z * Z * Z) :=
  match fuel with
  | O => diverge
  | S fuel' =>
      if Z.max score opponent_score <? goal then
        let func_strategy := if who =? 0 then strategy0 else strategy1 in
        let num_rolls := func_strategy score opponent_score in
        let dice := select_dice score opponent_score in
        delta <- take_turn fuel' num_rolls opponent_score dice ;;
        let score := score + delta in
        let p := rotate (swap_rule score opponent_score) in
        play_loop fuel' strategy0 strategy1 goal (other who) (fst p) (snd p)
      else ret (who, score, opponent_score)
  end.

Definition play (fuel : nat) (strategy0 strategy1 : Strategy) (goal : Z)
    : M (Z * Z) :=
  r <- play_loop fuel strategy0 strategy1 goal 0 0 0 ;;
  let '(who, score, opponent_score) := r in
  if who =? 0 then ret (score, opponent_score)
  else ret (opponent_score, score).


(** ** Phase 2: strategies and experiments *)

Definition always_roll (n : value) : Strategy :=
  fun score opponent_score => n.

(** [total / num_samples] on integers. *)
Definition truediv (a b : Z) : M pyfloat :=
  if b =? 0 then raise ZeroDivisionError
  else
    match float_div (int_operand a) (int_operand b) with
    | S754_infinity _ => raise OverflowError
    | q => ret q
    end.

(** The [while i < num_samples] loop of [average]; [args] stands for the
    argument tuple [*args], the same at every call of [fn]. *)
Fixpoint average_loop {A} (fuel : nat) (fn : nat -> A -> M Z)
    (num_samples : Z) (args : A) (i total : Z) : M Z :=
  match fuel with
  | O => diverge
  | S fuel' =>
      if i <? num_samples then
        r <- fn fuel' args ;;
        average_loop fuel' fn num_samples args (i + 1) (total + r)
      else ret total
  end.

Definition make_averaged {A} (fn : nat -> A -> M Z) (num_samples : Z)
    : nat -> A -> M pyfloat :=
  fun fuel args =>
    total <- average_loop fuel fn num_samples args 0 0 ;;
    truediv total num_samples.

(** [roll_dice] on its argument tuple, as [make_averaged(roll_dice)] calls
    it. *)
Definition roll_dice_args (fuel : nat) (args : Z * Dice) : M Z :=
  roll_dice fuel (VInt (fst args)) (snd args).

(** The [while roll <= 10] loop of [max_scoring_num_rolls].  [best_value]
    starts as the integer 0, which compares with a float as 0.0 does. *)
Fixpoint max_scoring_loop (fuel : nat) (dice : Dice)
    (roll max_num_roll : Z) (best_value : pyfloat) : M Z :=
  match fuel with
  | O => diverge
  | S fuel' =>
      if roll <=? 10 then
        ave_value <- make_averaged roll_dice_args 1000 fuel' (roll, dice) ;;
        print roll ave_value ;;;
        if float_lt best_value ave_value
        then max_scoring_loop fuel' dice (roll + 1) roll ave_value
        else max_scoring_loop fuel' dice (roll + 1) max_num_roll best_value
      else ret max_num_roll
  end.

Definition max_scoring_num_rolls (fuel : nat) (dice : Dice) : M Z :=
  max_scoring_loop fuel dice 1 0 (float_of_int 0).

Definition winner (fuel : nat) (strategy0 strategy1 : Strategy) : M Z :=
  r <- play fuel strategy0 strategy1 GOAL_SCORE ;;
  let '(score0, score1) := r in
  if score0 >? score1 then ret 0 else ret 1.

(** [winner] on its argument tuple, as [make_averaged(winner)] calls it. *)
Definition winner_args (fuel : nat) (args : Strategy * Strategy) : M Z :=
  winner fuel (fst args) (snd args).

Definition average_win_rate (fuel : nat) (strategy baseline : Strategy)
    : M pyfloat :=
  a <- make_averaged winner_args 1000 fuel (strategy, baseline) ;;
  let win_rate_as_player_0 := float_sub (float_of_int 1) a in
  win_rate_as_player_1 <-
    make_averaged winner_args 1000 fuel (baseline, strategy) ;;
  ret (float_div (float_add win_rate_as_player_0 win_rate_as_player_1)
                 (float_of_int 2)).

Definition bacon_strategy (margin num_rolls : Z) : Strategy :=
  fun score opponent_score =>
    if free_bacon opponent_score >=? margin then VInt 0 else VInt num_rolls.

Definition swap_strategy (margin num_rolls : Z) : Strategy :=
  fun score opponent_score =>
    let bacon_point := free_bacon opponent_score in
    if (bacon_point + score) * 2 =? opponent_score then VInt 0
    else if bacon_point + score =? opponent_score * 2 then VInt num_rolls
    else if bacon_point >=? margin then VInt 0
    else VInt num_rolls.

(** [final_strategy]; its unused local [dice_size] is left out. *)
Definition final_strategy : Strategy :=
  fun score opponent_score =>
    let bacon_point := free_bacon opponent_score in
    let losing_score := opponent_score - score in
    let by_margin :=
      if losing_score >? 40 then VInt 10
      else if losing_score >? 20 then VInt 8
      else if losing_score >? 10 then VInt 6
      else if losing_score =? 0 then VInt 4
      else swap_strategy 8 5 score opponent_score in
    if score >? 90 then VInt 0
    else if losing_score >? 20 then
      if (score + bacon_point) * 2 =? opponent_score then VInt 0
      else if (score + 1) * 2 =? opponent_score then VInt 10
      else if score * 2 + 1 =? opponent_score then VInt 10
      else by_margin
    else by_margin.

(** ** Specification-side notions *)

(** The dice source returns a positive outcome whatever its state. *)
Definition positive_dice (dice : Dice) : Prop :=
  forall s, 0 < fst (dice s).

(** The dice source never returns more than [bound]. *)
Definition bounded_dice (dice : Dice) (bound : Z) : Prop :=
  forall s, fst (dice s) <= bound.

(** The strategy returns an integer roll count in [0, 10]. *)
Definition valid_strategy (strategy : Strategy) : Prop :=
  forall score opponent_score,
    exists n, strategy score opponent_score = VInt n /\ 0 <= n <= 10.

(** The outcomes of [n] successive calls of [dice] from state [s], in
    order, and the state they leave. *)
Fixpoint dice_calls (dice : Dice) (n : nat) (s : DS) : list Z * DS :=
  match n with
  | O => ([], s)
  | S n' =>
      let (v, s1) := dice s in
      let (vs, s2) := dice_calls dice n' s1 in
      (v :: vs, s2)
  end.

Definition sum_list (l : list Z) : Z := fold_right Z.add 0 l.

(** The world after the outcomes [outs] were rolled, ending in dice state
    [s]. *)
Definition after_rolls (w : World) (outs : list Z) (s : DS) : World :=
  {| rng := s; rolled := rev outs ++ rolled w; printed := printed w |}.

(** The game with the scores kept by player, as the specification of
    [play] describes the result: [score0] is always player 0's score. *)
Fixpoint play_by_player_loop (fuel : nat) (strategy0 strategy1 : Strategy)
    (goal : Z) (who score0 score1 : Z) : M (Z * Z) :=
  match fuel with
  | O => diverge
  | S fuel' =>
      if Z.max score0 score1 <? goal then
        let own := if who =? 0 then score0 else score1 in
        let opp := if who =? 0 then score1 else score0 in
        let strategy := if who =? 0 then strategy0 else strategy1 in
        delta <- take_turn fuel' (strategy own opp) opp (select_dice own opp) ;;
        let own := own + delta in
        let swap := (own =? 2 * opp) || (opp =? 2 * own) in
        let own' := if swap then opp else own in
        let opp' := if swap then own else opp in
        if who =? 0
        then play_by_player_loop fuel' strategy0 strategy1 goal 1 own' opp'
        else play_by_player_loop fuel' strategy0 strategy1 goal 0 opp' own'
      else ret (score0, score1)
  end.

(** More fuel never changes a result. *)
Definition fuel_monotone {A} (f : nat -> M A) : Prop :=
  forall fuel fuel' w,
    (fuel <= fuel')%nat -> f fuel w <> OutOfFuel -> f fuel' w = f fuel w.

(** What [play] does after its loop: put player 0's score first. *)
Definition by_player (r : Z * Z * Z) : Z * Z :=
  let '(who, score, opponent_score) := r in
  if who =? 0 then (score, opponent_score) else (opponent_score, score).

Definition play_by_player (fuel : nat) (strategy0 strategy1 : Strategy)
    (goal : Z) : M (Z * Z) :=
  play_by_player_loop fuel strategy0 strategy1 goal 0 0 0.

(** [samples fn args n w rs w']: [n] successive calls of [fn] on [args], starting
    in world [w], return the values [rs] in this order and leave the world
    [w']. *)
Inductive samples {A} (fn : A -> M Z) (args : A)
    : nat -> World -> list Z -> World -> Prop :=
| samples_nil w : samples fn args 0 w [] w
| samples_cons n w r w1 rs w' :
    fn args w = Ret r w1 ->
    samples fn args n w1 rs w' ->
    samples fn args (S n) w (r :: rs) w'.

(** The arithmetic mean of integer samples as Python computes it: the sum
    divided by the number of samples, rounded once. *)
Definition mean (rs : list Z) : pyfloat :=
  float_div (int_operand (sum_list rs))
            (int_operand (Z.of_nat (List.length rs))).

(** [averages dice roll n w avs w']: for the [n] roll counts from [roll]
    on, in increasing order, [avs] lists the mean of 1000 samples of
    [roll_dice], each mean being printed before the next roll count is
    sampled. *)
Inductive averages (dice : Dice)
    : Z -> nat -> World -> list pyfloat -> World -> Prop :=
| averages_nil roll w : averages dice roll 0 w [] w
| averages_cons roll n w rs w1 w2 avs w' :
    samples (roll_dice_args 11) (roll, dice) 1000 w rs w1 ->
    print roll (mean rs) w1 = Ret tt w2 ->
    averages dice (roll + 1) n w2 avs w' ->
    averages dice roll (S n) w (mean rs :: avs) w'.

(** The update [if ave_value > best_value: ...] of
    [max_scoring_num_rolls], on the pair (max_num_roll, best_value). *)
Definition keep_higher (best : Z * pyfloat) (x : Z * pyfloat)
    : Z * pyfloat :=
  if float_lt (snd best) (snd x) then x else best.

Fixpoint numbered (roll : Z) (avs : list pyfloat) : list (Z * pyfloat) :=
  match avs with
  | [] => []
  | a :: avs' => (roll, a) :: numbered (roll + 1) avs'
  end.

End Hog.

Arguments Raise {DS A} e w.
Arguments OutOfFuel {DS A}.
Arguments Ret {DS A} a w.

(** ** Scripted dice *)

(** Modelled from the spec: [dice.make_test_dice], which is not part of the
    sources.  The dice replays [outcomes] in order and wraps back to the
    start; its state is the cursor into [outcomes]. *)
Definition make_test_dice (outcomes : list Z) : Dice nat :=
  fun cursor =>
    (nth (cursor mod List.length outcomes) outcomes 0,
     (S cursor mod List.length outcomes)%nat).

(** Two scripted dice side by side, each with a cursor of its own. *)
Definition first_dice (d : Dice nat) : Dice (nat * nat) :=
  fun s => let (v, c) := d (fst s) in (v, (c, snd s)).

Definition second_dice (d : Dice nat) : Dice (nat * nat) :=
  fun s => let (v, c) := d (snd s) in (v, (fst s, c)).

Definition initial_world : World (nat * nat) :=
  {| rng := (0%nat, 0%nat); rolled := []; printed := [] |}.

(** The scripted dice of the examples: a four-sided dice replaying 1, 2,
    3, 4, a six-sided dice replaying 6, 5, 4, 3, 2, 1, and a six-sided dice
    that always shows 6. *)
Definition test_four_sided : Dice (nat * nat) :=
  first_dice (make_test_dice [1; 2; 3; 4]).

Definition test_six_sided : Dice (nat * nat) :=
  second_dice (make_test_dice [6; 5; 4; 3; 2; 1]).

Definition all_sixes : Dice (nat * nat) :=
  second_dice (make_test_dice [6]).


(** ** Tables for the win rates

    A batch of 1000 games has between 0 and 1000 wins of player 1, so the
    averaged [winner] is one of the 1001 floats of [rate_table]. *)

Definition positive_finite (x : pyfloat) : bool :=
  match x with
  | S754_finite false _ _ => true
  | _ => false
  end.

Definition is_infinity (x : pyfloat) : bool :=
  match x with
  | S754_infinity _ => true
  | _ => false
  end.

Definition rate (k : Z) : pyfloat :=
  float_div (int_operand k) (int_operand 1000).

Definition counts : list Z := map Z.of_nat (seq 0 1001).

Definition rate_table : list pyfloat := Eval vm_compute in map rate counts.

Definition prim_rate_table : list float :=
  Eval vm_compute in map SF2Prim rate_table.

(** [(1 - a + b) / 2] and the test [0 <= x <= 1], on the spec floats and
    on the primitive binary64 floats. *)
Definition win_rate (a b : pyfloat) : pyfloat :=
  float_div (float_add (float_sub (float_of_int 1) a) b) (float_of_int 2).

Definition in_unit_interval (x : pyfloat) : bool :=
  float_le (float_of_int 0) x && float_le x (float_of_int 1).

Definition win_rate_prim (a b : float) : float := ((1 - a + b) / 2)%float.

Definition in_unit_interval_prim (x : float) : bool :=
  ((0 <=? x) && (x <=? 1))%float.

(** * Facts about the simulator *)

Section HogFacts.

Variable DS : Type.
Variable four_sided six_sided : Dice DS.

Implicit Types (dice : Dice DS) (w : World DS) (fuel : nat).

(** ** The monad *)

Lemma bind_Ret {A B} (m : M DS A) (k : A -> M DS B) w a w' :
  m w = Ret a w' -> bind m k w = k a w'.
Proof. intros H. unfold bind. now rewrite H. Qed.

Lemma bind_Raise {A B} (m : M DS A) (k : A -> M DS B) w e w' :
  m w = Raise e w' -> bind m k w = Raise e w'.
Proof. intros H. unfold bind. now rewrite H. Qed.

Lemma assert_true {B} msg (k : unit -> M DS B) w :
  bind (@assert_ DS true msg) k w = k tt w.
Proof. reflexivity. Qed.

Lemma assert_false {B} msg (k : unit -> M DS B) w :
  bind (@assert_ DS false msg) k w = Raise (AssertionError msg) w.
Proof. reflexivity. Qed.

(** ** Rolling *)

Lemma after_rolls_nil w : after_rolls w [] (rng w) = w.
Proof. now destruct w. Qed.

Lemma after_rolls_cons w v vs s1 s2 :
  after_rolls {| rng := s1; rolled := v :: rolled w; printed := printed w |}
              vs s2
  = after_rolls w (v :: vs) s2.
Proof.
  unfold after_rolls; cbn [rng rolled printed rev].
  now rewrite <- app_assoc.
Qed.

Lemma dice_calls_length dice n s :
  List.length (fst (dice_calls dice n s)) = n.
Proof.
  revert s; induction n as [|n IH]; intros s; cbn [dice_calls].
  - reflexivity.
  - destruct (dice s) as [v s1]. specialize (IH s1).
    destruct (dice_calls dice n s1) as [vs s2]. cbn in *. now rewrite IH.
Qed.

(** The loop of [roll_dice] calls the dice once per remaining roll, adds
    every outcome to [total] and remembers whether a 1 was seen. *)
Lemma roll_loop_spec dice n :
  forall fuel total pig_out w,
    (n < fuel)%nat ->
    roll_loop fuel dice total pig_out (Z.of_nat n) w
    = let (outs, s) := dice_calls dice n (rng w) in
      Ret (total + sum_list outs, pig_out || existsb (Z.eqb 1) outs)
          (after_rolls w outs s).
Proof.
  induction n as [|n IH]; intros fuel total pig_out w Hfuel.
  - destruct fuel as [|fuel]; [lia|]. cbn.
    rewrite Z.add_0_r, orb_false_r, after_rolls_nil. reflexivity.
  - destruct fuel as [|fuel]; [lia|].
    cbn [roll_loop dice_calls].
    replace (Z.of_nat (S n) =? 0) with false by (symmetry; apply Z.eqb_neq; lia).
    cbn [negb]. unfold bind at 1, call.
    destruct (dice (rng w)) as [v s1].
    replace (Z.of_nat (S n) - 1) with (Z.of_nat n) by lia.
    rewrite IH by lia. cbn [rng].
    destruct (dice_calls dice n s1) as [vs s2].
    rewrite after_rolls_cons. cbn [sum_list fold_right existsb].
    f_equal. f_equal.
    + unfold sum_list. lia.
    + rewrite (Z.eqb_sym 1 v). destruct (v =? 1), pig_out; reflexivity.
Qed.

Lemma roll_dice_spec dice num_rolls fuel w :
  1 <= num_rolls -> (Z.to_nat num_rolls < fuel)%nat ->
  roll_dice fuel (VInt num_rolls) dice w
  = let (outs, s) := dice_calls dice (Z.to_nat num_rolls) (rng w) in
    Ret (if existsb (Z.eqb 1) outs then 1 else sum_list outs)
        (after_rolls w outs s).
Proof.
  intros Hn Hfuel. unfold roll_dice.
  replace (num_rolls >? 0) with true by (symmetry; apply Z.gtb_lt; lia).
  rewrite assert_true. unfold bind.
  rewrite <- (Z2Nat.id num_rolls) at 1 by lia.
  rewrite roll_loop_spec by assumption.
  destruct (dice_calls dice (Z.to_nat num_rolls) (rng w)) as [outs s].
  cbn [orb]. destruct (existsb (Z.eqb 1) outs); reflexivity.
Qed.

Lemma sum_list_positive (l : list Z) :
  Forall (fun v => 0 < v) l -> l <> [] -> 0 < sum_list l.
Proof.
  induction 1 as [|v l Hv Hl IH]; intros Hne; [congruence|].
  cbn. destruct l as [|v' l'].
  - cbn. lia.
  - assert (0 < sum_list (v' :: l')) by (apply IH; congruence).
    unfold sum_list in *. lia.
Qed.

Lemma dice_calls_positive dice n s :
  positive_dice dice -> Forall (fun v => 0 < v) (fst (dice_calls dice n s)).
Proof.
  intros Hpos. revert s; induction n as [|n IH]; intros s; cbn [dice_calls].
  - constructor.
  - pose proof (Hpos s) as Hv. destruct (dice s) as [v s1]. specialize (IH s1).
    destruct (dice_calls dice n s1) as [vs s2]. cbn in *. now constructor.
Qed.

Lemma select_dice_positive score opponent_score :
  positive_dice four_sided -> positive_dice six_sided ->
  positive_dice (select_dice four_sided six_sided score opponent_score).
Proof. intros H4 H6. unfold select_dice. now destruct (_ =? 0). Qed.

Lemma free_bacon_bounds score :
  0 <= score < 100 -> 1 <= free_bacon score <= 10.
Proof.
  intros H. unfold free_bacon.
  assert (0 <= score / 10 < 10) by (split; [apply Z.div_pos | apply Z.div_lt_upper_bound]; lia).
  pose proof (Z.mod_pos_bound score 10 ltac:(lia)). lia.
Qed.

(** A turn within its preconditions returns a positive number of points. *)
Lemma take_turn_returns dice n opponent_score fuel w :
  0 <= n <= 10 -> opponent_score < 100 -> (10 < fuel)%nat ->
  exists delta w',
    take_turn fuel (VInt n) opponent_score dice w = Ret delta w' /\
    (positive_dice dice -> 0 <= opponent_score -> 1 <= delta).
Proof.
  intros Hn Hopp Hfuel. unfold take_turn.
  replace (n >=? 0) with true by (symmetry; apply Z.geb_le; lia).
  replace (n <=? 10) with true by (symmetry; apply Z.leb_le; lia).
  replace (opponent_score <? 100) with true by (symmetry; apply Z.ltb_lt; lia).
  rewrite !assert_true.
  destruct (Z.eqb_spec n 0) as [->|Hn0].
  - eexists _, _. split; [reflexivity|]. intros _ Ho.
    apply free_bacon_bounds. lia.
  - rewrite roll_dice_spec by lia.
    pose proof (dice_calls_length dice (Z.to_nat n) (rng w)) as Hlen.
    pose proof (@dice_calls_positive dice (Z.to_nat n) (rng w)) as Hpos.
    destruct (dice_calls dice (Z.to_nat n) (rng w)) as [outs s]. cbn in *.
    eexists _, _. split; [reflexivity|]. intros Hd _.
    destruct (existsb (Z.eqb 1) outs); [lia|].
    assert (0 < sum_list outs); [|lia].
    apply sum_list_positive; [auto|]. intros ->. cbn in Hlen. lia.
Qed.

(** The assertions of [take_turn], one by one. *)
Lemma take_turn_game_over dice n opponent_score fuel w :
  0 <= n <= 10 -> 100 <= opponent_score ->
  take_turn fuel (VInt n) opponent_score dice w
  = Raise (AssertionError "The game should be over.") w.
Proof.
  intros Hn Hopp. unfold take_turn.
  replace (n >=? 0) with true by (symmetry; apply Z.geb_le; lia).
  replace (n <=? 10) with true by (symmetry; apply Z.leb_le; lia).
  replace (opponent_score <? 100) with false by (symmetry; apply Z.ltb_ge; lia).
  reflexivity.
Qed.

(** ** More fuel never changes a result *)

Lemma roll_loop_monotone dice :
  forall fuel fuel' total pig_out num_rolls w,
    (fuel <= fuel')%nat ->
    roll_loop fuel dice total pig_out num_rolls w <> OutOfFuel ->
    roll_loop fuel' dice total pig_out num_rolls w
    = roll_loop fuel dice total pig_out num_rolls w.
Proof.
  induction fuel as [|fuel IH]; intros fuel' total pig_out num_rolls w Hle Hne.
  - exfalso. apply Hne. reflexivity.
  - destruct fuel' as [|fuel']; [lia|]. cbn [roll_loop] in *.
    destruct (negb (num_rolls =? 0)); [|reflexivity].
    unfold bind in *. destruct (call dice w) as [v w1|e w1|]; try reflexivity.
    apply IH; [lia|assumption].
Qed.

Lemma roll_dice_monotone num_rolls dice :
  fuel_monotone (fun fuel => roll_dice fuel num_rolls dice).
Proof.
  destruct num_rolls; try (intros ? ? ? _ _; reflexivity).
  unfold roll_dice. intros fuel fuel' w Hle.
  unfold bind. destruct (assert_ (n >? 0) _ w) as [[] w1|e w1|]; try reflexivity.
  intros Hne.
  destruct (roll_loop fuel dice 0 false n w1) as [r w2|e w2|] eqn:E.
  - rewrite roll_loop_monotone with (fuel := fuel) by (try lia; rewrite E; discriminate).
    now rewrite E.
  - rewrite roll_loop_monotone with (fuel := fuel) by (try lia; rewrite E; discriminate).
    now rewrite E.
  - now contradiction Hne.
Qed.

Lemma take_turn_monotone num_rolls opponent_score dice :
  fuel_monotone (fun fuel => take_turn fuel num_rolls opponent_score dice).
Proof.
  destruct num_rolls; try (intros ? ? ? _ _; reflexivity).
  unfold take_turn. intros fuel fuel' w Hle.
  unfold bind. destruct (assert_ (n >=? 0) _ w); try reflexivity.
  destruct (assert_ (n <=? 10) _ w0); try reflexivity.
  destruct (assert_ (opponent_score <? 100) _ w1); try reflexivity.
  destruct (n =? 0); [reflexivity|].
  now apply (roll_dice_monotone (VInt n) dice).
Qed.

Lemma play_loop_monotone strategy0 strategy1 goal :
  forall fuel fuel' who score opponent_score w,
    (fuel <= fuel')%nat ->
    play_loop four_sided six_sided fuel strategy0 strategy1 goal
              who score opponent_score w <> OutOfFuel ->
    play_loop four_sided six_sided fuel' strategy0 strategy1 goal
              who score opponent_score w
    = play_loop four_sided six_sided fuel strategy0 strategy1 goal
                who score opponent_score w.
Proof.
  induction fuel as [|fuel IH]; intros fuel' who score opp w Hle Hne.
  - exfalso. apply Hne. reflexivity.
  - destruct fuel' as [|fuel']; [lia|]. cbn [play_loop] in *.
    destruct (Z.max score opp <? goal); [|reflexivity].
    cbv zeta in *. unfold bind in *.
    match goal with
    | |- context [take_turn fuel' ?v ?o ?d w] =>
        destruct (take_turn fuel v o d w) as [delta w1|e w1|] eqn:E;
        [ | | congruence];
        rewrite (@take_turn_monotone v o d fuel fuel' w) by (try lia; congruence);
        rewrite E
    end.
    + apply IH; [lia|assumption].
    + reflexivity.
Qed.

Lemma play_monotone strategy0 strategy1 goal :
  fuel_monotone
    (fun fuel => play four_sided six_sided fuel strategy0 strategy1 goal).
Proof.
  unfold play. intros fuel fuel' w Hle. unfold bind. intros Hne.
  destruct (play_loop four_sided six_sided fuel strategy0 strategy1 goal
                      0 0 0 w) as [r w1|e w1|] eqn:E.
  - rewrite play_loop_monotone with (fuel := fuel) by (try lia; rewrite E; discriminate).
    now rewrite E.
  - rewrite play_loop_monotone with (fuel := fuel) by (try lia; rewrite E; discriminate).
    now rewrite E.
  - now contradiction Hne.
Qed.

(** ** The rotating pair and the scores by player *)

Lemma play_unfold fuel strategy0 strategy1 goal w :
  play four_sided six_sided fuel strategy0 strategy1 goal w
  = bind (play_loop four_sided six_sided fuel strategy0 strategy1 goal 0 0 0)
         (fun r => ret (by_player r)) w.
Proof.
  unfold play, bind.
  destruct (play_loop _ _ _ _ _ _ _ _ _ w) as [[[who score] opp] w1|e w1|];
    try reflexivity.
  cbn. now destruct (who =? 0).
Qed.

Lemma play_loop_by_player strategy0 strategy1 goal :
  forall fuel who score opponent_score w,
    who = 0 \/ who = 1 ->
    bind (play_loop four_sided six_sided fuel strategy0 strategy1 goal
                    who score opponent_score)
         (fun r => ret (by_player r)) w
    = play_by_player_loop four_sided six_sided fuel strategy0 strategy1 goal
        who (fst (by_player (who, score, opponent_score)))
            (snd (by_player (who, score, opponent_score))) w.
Proof.
  induction fuel as [|fuel IH]; intros who score opp w Hwho; [reflexivity|].
  cbn [play_loop play_by_player_loop].
  assert (Hmax : Z.max (fst (by_player (who, score, opp)))
                       (snd (by_player (who, score, opp)))
                 = Z.max score opp).
  { destruct Hwho as [-> | ->]; cbn; lia. }
  rewrite Hmax. destruct (Z.max score opp <? goal).
  2:{ unfold bind, ret. now destruct (by_player (who, score, opp)). }
  cbv zeta.
  assert (Hown : (if who =? 0 then fst (by_player (who, score, opp))
                  else snd (by_player (who, score, opp))) = score)
    by (destruct Hwho as [-> | ->]; reflexivity).
  assert (Hopp : (if who =? 0 then snd (by_player (who, score, opp))
                  else fst (by_player (who, score, opp))) = opp)
    by (destruct Hwho as [-> | ->]; reflexivity).
  rewrite Hown, Hopp. unfold bind at 1 2 3.
  destruct (take_turn fuel _ opp _ w) as [delta w1|e w1|]; try reflexivity.
  specialize (IH (other who)
                 (fst (rotate (swap_rule (score + delta) opp)))
                 (snd (rotate (swap_rule (score + delta) opp))) w1).
  unfold bind in IH. rewrite IH by (unfold other; lia).
  unfold swap_rule, rotate, other.
  destruct Hwho as [-> | ->];
    destruct ((score + delta =? 2 * opp) || (opp =? 2 * (score + delta)));
    reflexivity.
Qed.

(** ** Termination of the game *)

Lemma swap_rule_cases score opponent_score :
  swap_rule score opponent_score = (score, opponent_score) \/
  swap_rule score opponent_score = (opponent_score, score).
Proof. unfold swap_rule. destruct (_ || _); auto. Qed.

Lemma play_loop_exit strategy0 strategy1 goal fuel who score opponent_score w :
  goal <= Z.max score opponent_score ->
  play_loop four_sided six_sided (S fuel) strategy0 strategy1 goal
            who score opponent_score w
  = Ret (who, score, opponent_score) w.
Proof.
  intros H. cbn [play_loop].
  replace (Z.max score opponent_score <? goal) with false
    by (symmetry; apply Z.ltb_ge; lia).
  reflexivity.
Qed.

(** With valid strategies and positive dice the loop of [play] ends after
    at most [2 * goal] turns: every turn adds at least one point to the sum
    of the two scores.  It ends by returning a pair that reached the goal,
    or, when the goal is above 100, by the assertion of [take_turn] on an
    opponent score that has reached 100. *)
Lemma play_loop_halts strategy0 strategy1 goal :
  valid_strategy strategy0 -> valid_strategy strategy1 ->
  positive_dice four_sided -> positive_dice six_sided ->
  forall k fuel who score opponent_score w,
    0 <= score -> 0 <= opponent_score ->
    2 * goal - (score + opponent_score) <= Z.of_nat k ->
    (k + 12 <= fuel)%nat ->
    (exists who' score' opponent_score' w',
        play_loop four_sided six_sided fuel strategy0 strategy1 goal
                  who score opponent_score w
        = Ret (who', score', opponent_score') w' /\
        goal <= Z.max score' opponent_score') \/
    (100 < goal /\
     exists w',
       play_loop four_sided six_sided fuel strategy0 strategy1 goal
                 who score opponent_score w
       = Raise (AssertionError "The game should be over.") w').
Proof.
  intros Hs0 Hs1 H4 H6.
  induction k as [|k IH]; intros fuel who score opp w Hs Ho Hk Hfuel;
    (destruct fuel as [|fuel]; [lia|]).
  - left. exists who, score, opp, w. split; [|lia].
    apply play_loop_exit. lia.
  - destruct (Z.ltb_spec (Z.max score opp) goal) as [Hlt|Hge].
    2:{ left. exists who, score, opp, w. split; [|lia].
        now apply play_loop_exit. }
    assert (Hn : exists n, (if who =? 0 then strategy0 else strategy1) score opp
                           = VInt n /\ 0 <= n <= 10)
      by (destruct (who =? 0); [apply Hs0 | apply Hs1]).
    destruct Hn as (n & En & Hn).
    assert (Estep :
      play_loop four_sided six_sided (S fuel) strategy0 strategy1 goal
                who score opp w
      = bind (take_turn fuel (VInt n) opp
                        (select_dice four_sided six_sided score opp))
             (fun delta =>
                play_loop four_sided six_sided fuel strategy0 strategy1 goal
                  (other who)
                  (fst (rotate (swap_rule (score + delta) opp)))
                  (snd (rotate (swap_rule (score + delta) opp)))) w).
    { cbn [play_loop].
      replace (Z.max score opp <? goal) with true
        by (symmetry; apply Z.ltb_lt; lia).
      cbv zeta. now rewrite En. }
    rewrite Estep. clear Estep.
    destruct (Z_lt_le_dec opp 100) as [Hopp|Hopp].
    + destruct (@take_turn_returns (select_dice four_sided six_sided score opp)
                  n opp fuel w Hn Hopp ltac:(lia)) as (delta & w1 & E & Hd).
      specialize (Hd (select_dice_positive score opp H4 H6) Ho).
      erewrite bind_Ret by exact E.
      destruct (swap_rule_cases (score + delta) opp) as [-> | ->];
        cbn [rotate fst snd]; apply IH; lia.
    + right. split; [lia|]. exists w.
      apply bind_Raise. now apply take_turn_game_over.
Qed.

(** ** The claims about turns *)

(** C3.  For [num_rolls >= 1], [roll_dice] calls the dice source exactly
    [num_rolls] times, whatever the outcomes (the dice state advances by
    [num_rolls] calls and the log of outcomes grows by [num_rolls]
    entries); it returns 1 if one of these outcomes is 1 and their sum
    otherwise. *)
Theorem roll_dice_calls_dice_num_rolls_times dice num_rolls fuel w :
  1 <= num_rolls -> (Z.to_nat num_rolls < fuel)%nat ->
  exists outs s,
    dice_calls dice (Z.to_nat num_rolls) (rng w) = (outs, s) /\
    Z.of_nat (List.length outs) = num_rolls /\
    roll_dice fuel (VInt num_rolls) dice w
    = Ret (if existsb (Z.eqb 1) outs then 1 else sum_list outs)
          {| rng := s; rolled := rev outs ++ rolled w;
             printed := printed w |} /\
    (existsb (Z.eqb 1) outs = true <-> In 1 outs).
Proof.
  intros Hn Hfuel.
  pose proof (roll_dice_spec dice w Hn Hfuel) as E.
  pose proof (dice_calls_length dice (Z.to_nat num_rolls) (rng w)) as Hlen.
  destruct (dice_calls dice (Z.to_nat num_rolls) (rng w)) as [outs s].
  exists outs, s. cbn [fst] in Hlen. repeat split.
  - lia.
  - exact E.
  - intros H. apply existsb_exists in H as (x & Hx & Hx1).
    apply Z.eqb_eq in Hx1. now subst x.
  - intros H. apply existsb_exists. exists 1. now split.
Qed.

(** C4.  With [num_rolls = 0] and [0 <= opponent_score < 100], [take_turn]
    leaves the world (dice state and log of outcomes) untouched and returns
    [free_bacon opponent_score], which is
    [1 + max (opponent_score // 10) (opponent_score % 10)]; so
    [free_bacon 0 = 1], [free_bacon 9 = 10] and [free_bacon 99 = 10]. *)
Theorem take_turn_zero_is_free_bacon dice opponent_score fuel w :
  0 <= opponent_score < 100 ->
  take_turn fuel (VInt 0) opponent_score dice w
  = Ret (free_bacon opponent_score) w /\
  free_bacon opponent_score
  = 1 + Z.max (opponent_score / 10) (opponent_score mod 10) /\
  free_bacon 0 = 1 /\ free_bacon 9 = 10 /\ free_bacon 99 = 10.
Proof.
  intros H. repeat split; try reflexivity.
  - unfold take_turn.
    replace (opponent_score <? 100) with true
      by (symmetry; apply Z.ltb_lt; lia).
    reflexivity.
  - unfold free_bacon. lia.
Qed.

(** C8.  A violated precondition raises an [AssertionError] at once, with
    the world unchanged and whatever the fuel: [roll_dice] on a roll count
    that is not an integer or is below 1; [take_turn] on a roll count that
    is not an integer, is negative or exceeds 10, and on an opponent score
    that has reached the goal of 100. *)
Theorem precondition_violations_raise dice fuel w :
  (forall v, (forall n, v <> VInt n) ->
     roll_dice fuel v dice w
     = Raise (AssertionError "num_rolls must be an integer.") w) /\
  (forall n, n < 1 ->
     roll_dice fuel (VInt n) dice w
     = Raise (AssertionError "Must roll at least once.") w) /\
  (forall v opponent_score, (forall n, v <> VInt n) ->
     take_turn fuel v opponent_score dice w
     = Raise (AssertionError "num_rolls must be an integer.") w) /\
  (forall n opponent_score, n < 0 ->
     take_turn fuel (VInt n) opponent_score dice w
     = Raise (AssertionError "Cannot roll a negative number of dice.") w) /\
  (forall n opponent_score, 10 < n ->
     take_turn fuel (VInt n) opponent_score dice w
     = Raise (AssertionError "Cannot roll more than 10 dice.") w) /\
  (forall n opponent_score, 0 <= n <= 10 -> GOAL_SCORE <= opponent_score ->
     take_turn fuel (VInt n) opponent_score dice w
     = Raise (AssertionError "The game should be over.") w).
Proof.
  repeat split.
  - intros v Hv. destruct v; try reflexivity. now contradiction (Hv n).
  - intros n Hn. unfold roll_dice.
    replace (n >? 0) with false by (symmetry; rewrite Z.gtb_ltb; apply Z.ltb_ge; lia).
    reflexivity.
  - intros v opp Hv. destruct v; try reflexivity. now contradiction (Hv n).
  - intros n opp Hn. unfold take_turn.
    replace (n >=? 0) with false by (symmetry; rewrite Z.geb_leb; apply Z.leb_gt; lia).
    reflexivity.
  - intros n opp Hn. unfold take_turn.
    replace (n >=? 0) with true by (symmetry; apply Z.geb_le; lia).
    replace (n <=? 10) with false by (symmetry; apply Z.leb_gt; lia).
    reflexivity.
  - intros n opp Hn Hopp. apply take_turn_game_over; [lia|exact Hopp].
Qed.

(** C9.  For a roll count in [0, 10], an opponent score in [0, 99] and a
    dice source with positive outcomes, [take_turn] returns an integer that
    is at least 1, so the score it is added to strictly increases. *)
Theorem take_turn_at_least_one dice n opponent_score fuel w :
  0 <= n <= 10 -> 0 <= opponent_score <= 99 -> positive_dice dice ->
  (10 < fuel)%nat ->
  exists delta w',
    take_turn fuel (VInt n) opponent_score dice w = Ret delta w' /\
    1 <= delta /\
    forall score, score < score + delta.
Proof.
  intros Hn Hopp Hd Hfuel.
  destruct (@take_turn_returns dice n opponent_score fuel w Hn ltac:(lia) Hfuel)
    as (delta & w' & E & H1).
  exists delta, w'. specialize (H1 Hd ltac:(lia)).
  repeat split; [exact E | lia | intros; lia].
Qed.

(** ** The claims about the game *)

Lemma play_loop_step strategy0 strategy1 goal fuel who score opponent_score w :
  Z.max score opponent_score < goal ->
  play_loop four_sided six_sided (S fuel) strategy0 strategy1 goal
            who score opponent_score w
  = bind (take_turn fuel
            ((if who =? 0 then strategy0 else strategy1) score opponent_score)
            opponent_score
            (select_dice four_sided six_sided score opponent_score))
         (fun delta =>
            play_loop four_sided six_sided fuel strategy0 strategy1 goal
              (other who)
              (fst (rotate (swap_rule (score + delta) opponent_score)))
              (snd (rotate (swap_rule (score + delta) opponent_score)))) w.
Proof.
  intros H. cbn [play_loop].
  replace (Z.max score opponent_score <? goal) with true
    by (symmetry; apply Z.ltb_lt; lia).
  reflexivity.
Qed.

(** C1.  One iteration of the loop of [play], taken while both scores are
    below the goal: the strategy of the player [who] is applied to the
    scores before the turn, the dice is [select_dice] of the scores before
    the turn, the result of [take_turn] is added to [score], the two scores
    are exchanged if one is now exactly twice the other, then they are
    exchanged unconditionally and [who] becomes [1 - who].  [play] builds
    its result from the pair and the value of [who] that the loop ends
    with, and this result is what the game with the scores kept by player
    returns: player 0's score first, whoever reached the goal. *)
Theorem play_turn_order_and_result strategy0 strategy1 goal :
  (forall fuel who score opponent_score w,
     Z.max score opponent_score < goal ->
     play_loop four_sided six_sided (S fuel) strategy0 strategy1 goal
               who score opponent_score w
     = bind (take_turn fuel
               ((if who =? 0 then strategy0 else strategy1)
                  score opponent_score)
               opponent_score
               (select_dice four_sided six_sided score opponent_score))
            (fun delta =>
               let score' := score + delta in
               let swap := (score' =? 2 * opponent_score)
                           || (opponent_score =? 2 * score') in
               let score'' := if swap then opponent_score else score' in
               let opponent_score'' :=
                 if swap then score' else opponent_score in
               play_loop four_sided six_sided fuel strategy0 strategy1 goal
                         (1 - who) opponent_score'' score'') w) /\
  (forall fuel w,
     play four_sided six_sided fuel strategy0 strategy1 goal w
     = bind (play_loop four_sided six_sided fuel strategy0 strategy1 goal
                       0 0 0)
            (fun r =>
               let '(who, score, opponent_score) := r in
               ret (if who =? 0 then (score, opponent_score)
                    else (opponent_score, score))) w) /\
  (forall fuel w,
     play four_sided six_sided fuel strategy0 strategy1 goal w
     = play_by_player four_sided six_sided fuel strategy0 strategy1 goal w).
Proof.
  split; [|split].
  2:{ intros fuel w. rewrite play_unfold. unfold bind.
      destruct (play_loop _ _ _ _ _ _ _ _ _ w) as [[[who score] opp] w1|e w1|];
        reflexivity. }
  - intros fuel who score opp w H. rewrite play_loop_step by exact H.
    unfold bind.
    destruct (take_turn fuel _ opp _ w) as [delta w1|e w1|]; try reflexivity.
    cbv zeta. unfold swap_rule, rotate, other.
    destruct ((score + delta =? 2 * opp) || (opp =? 2 * (score + delta)));
      reflexivity.
  - intros fuel w. rewrite play_unfold.
    rewrite play_loop_by_player by (now left). reflexivity.
Qed.



(** C10.  In an iteration of the loop of [play] whose turn adds [delta],
    the conditional exchange ([swap_rule]) and the unconditional one
    ([rotate]) both leave the two values [score + delta] and
    [opponent_score] in the pair, in some order; so the maximum of the pair
    at the end of the iteration is its maximum just after [delta] was
    added, and if that maximum has reached the goal the loop ends at its
    next test with this very pair. *)
Theorem swaps_keep_both_scores strategy0 strategy1 goal fuel
    who score opponent_score w delta w1 :
  Z.max score opponent_score < goal ->
  take_turn (S fuel)
    ((if who =? 0 then strategy0 else strategy1) score opponent_score)
    opponent_score (select_dice four_sided six_sided score opponent_score) w
  = Ret delta w1 ->
  let swapped := swap_rule (score + delta) opponent_score in
  let rotated := rotate swapped in
  Permutation [fst swapped; snd swapped] [score + delta; opponent_score] /\
  Permutation [fst rotated; snd rotated] [fst swapped; snd swapped] /\
  Z.max (fst rotated) (snd rotated) = Z.max (score + delta) opponent_score /\
  play_loop four_sided six_sided (S (S fuel)) strategy0 strategy1 goal
            who score opponent_score w
  = play_loop four_sided six_sided (S fuel) strategy0 strategy1 goal
              (other who) (fst rotated) (snd rotated) w1 /\
  (goal <= Z.max (score + delta) opponent_score ->
   play_loop four_sided six_sided (S (S fuel)) strategy0 strategy1 goal
             who score opponent_score w
   = Ret (other who, fst rotated, snd rotated) w1).
Proof.
  intros Hlt E swapped rotated.
  assert (Hstep :
    play_loop four_sided six_sided (S (S fuel)) strategy0 strategy1 goal
              who score opponent_score w
    = play_loop four_sided six_sided (S fuel) strategy0 strategy1 goal
                (other who) (fst rotated) (snd rotated) w1).
  { rewrite play_loop_step by exact Hlt. now erewrite bind_Ret by exact E. }
  assert (Hmax : Z.max (fst rotated) (snd rotated)
                 = Z.max (score + delta) opponent_score).
  { subst rotated swapped.
    destruct (swap_rule_cases (score + delta) opponent_score) as [-> | ->];
      cbn; lia. }
  repeat split.
  - subst swapped.
    destruct (swap_rule_cases (score + delta) opponent_score) as [-> | ->];
      cbn [fst snd]; [apply Permutation_refl | apply perm_swap].
  - subst rotated. cbn [rotate fst snd]. apply perm_swap.
  - exact Hmax.
  - exact Hstep.
  - intros Hgoal. rewrite Hstep. apply play_loop_exit. lia.
Qed.

End HogFacts.

(** * Concrete games *)

Lemma make_test_dice_positive (outcomes : list Z) :
  outcomes <> [] -> forallb (fun v => 0 <? v) outcomes = true ->
  positive_dice (make_test_dice outcomes).
Proof.
  intros Hne Hall s. cbn [make_test_dice fst].
  assert (Hin : In (nth (s mod List.length outcomes) outcomes 0) outcomes).
  { apply nth_In. apply Nat.mod_upper_bound.
    destruct outcomes; [congruence | discriminate]. }
  rewrite forallb_forall in Hall. now apply Z.ltb_lt, Hall.
Qed.

Lemma first_dice_positive (d : Dice nat) :
  positive_dice d -> positive_dice (first_dice d).
Proof.
  intros H s. unfold first_dice. specialize (H (fst s)).
  now destruct (d (fst s)).
Qed.

Lemma second_dice_positive (d : Dice nat) :
  positive_dice d -> positive_dice (second_dice d).
Proof.
  intros H s. unfold second_dice. specialize (H (snd s)).
  now destruct (d (snd s)).
Qed.

Lemma always_roll_valid (n : Z) :
  0 <= n <= 10 -> valid_strategy (always_roll (VInt n)).
Proof. intros H score opp. now exists n. Qed.

Lemma swap_strategy_valid : valid_strategy (swap_strategy 8 5).
Proof.
  intros score opp. unfold swap_strategy.
  repeat match goal with
         | |- context [if ?b then _ else _] => destruct b
         end; eexists; (split; [reflexivity | lia]).
Qed.

Lemma final_strategy_valid : valid_strategy final_strategy.
Proof.
  intros score opp. unfold final_strategy. cbv zeta.
  destruct (swap_strategy_valid score opp) as (n & -> & Hn).
  repeat match goal with
         | |- context [if ?b then _ else _] => destruct b
         end; eexists; (split; [reflexivity | lia]).
Qed.

Lemma test_four_sided_positive : positive_dice test_four_sided.
Proof. now apply first_dice_positive, make_test_dice_positive. Qed.

Lemma test_six_sided_positive : positive_dice test_six_sided.
Proof. now apply second_dice_positive, make_test_dice_positive. Qed.


(** The doctest of [make_averaged]: two rolls of the dice 3, 1, 5, 6 give 1
    and 11 in turn. *)
Example roll_dice_3_1_5_6 :
  let dice := make_test_dice [3; 1; 5; 6] in
  exists w1 w2,
    roll_dice 3 (VInt 2) dice {| rng := 0%nat; rolled := []; printed := [] |}
    = Ret 1 w1 /\
    roll_dice 3 (VInt 2) dice w1 = Ret 11 w2 /\
    rolled w2 = [6; 5; 1; 3].
Proof. eexists _, _. repeat split. Qed.

Lemma roll_dice_calls_dice_num_rolls_times_witness :
  exists outs s,
    dice_calls test_six_sided 4 (0%nat, 0%nat) = (outs, s) /\
    Z.of_nat (List.length outs) = 4 /\
    roll_dice 5 (VInt 4) test_six_sided initial_world
    = Ret (if existsb (Z.eqb 1) outs then 1 else sum_list outs)
          {| rng := s; rolled := rev outs ++ []; printed := [] |} /\
    (existsb (Z.eqb 1) outs = true <-> In 1 outs).
Proof.
  apply (@roll_dice_calls_dice_num_rolls_times _ test_six_sided 4 5%nat
           initial_world); [lia | cbn; lia].
Defined.

Lemma take_turn_zero_is_free_bacon_witness :
  take_turn 0 (VInt 0) 37 test_six_sided initial_world
  = Ret 8 initial_world.
Proof.
  apply (@take_turn_zero_is_free_bacon _ test_six_sided 37 0%nat
           initial_world). lia.
Defined.

Lemma precondition_violations_raise_witness :
  roll_dice 5 VNone test_six_sided initial_world
  = Raise (AssertionError "num_rolls must be an integer.") initial_world /\
  roll_dice 5 (VInt 0) test_six_sided initial_world
  = Raise (AssertionError "Must roll at least once.") initial_world /\
  take_turn 5 (VBool true) 20 test_six_sided initial_world
  = Raise (AssertionError "num_rolls must be an integer.") initial_world /\
  take_turn 5 (VInt (-1)) 20 test_six_sided initial_world
  = Raise (AssertionError "Cannot roll a negative number of dice.")
          initial_world /\
  take_turn 5 (VInt 11) 20 test_six_sided initial_world
  = Raise (AssertionError "Cannot roll more than 10 dice.") initial_world /\
  take_turn 5 (VInt 3) 100 test_six_sided initial_world
  = Raise (AssertionError "The game should be over.") initial_world.
Proof.
  destruct (precondition_violations_raise test_six_sided 5 initial_world)
    as (H1 & H2 & H3 & H4 & H5 & H6).
  refine (conj _ (conj _ (conj _ (conj _ (conj _ _))))).
  - apply H1. discriminate.
  - apply H2. lia.
  - apply H3. discriminate.
  - apply H4. lia.
  - apply H5. lia.
  - apply H6; unfold GOAL_SCORE; lia.
Defined.

Lemma take_turn_at_least_one_witness :
  exists delta w',
    take_turn 11 (VInt 3) 42 test_six_sided initial_world = Ret delta w' /\
    1 <= delta /\
    forall score, score < score + delta.
Proof.
  apply take_turn_at_least_one;
    [lia | lia | exact test_six_sided_positive | lia].
Defined.

Lemma play_turn_order_and_result_witness :
  play_loop test_four_sided all_sixes 12 (always_roll (VInt 6)) final_strategy
            100 0 4 20 initial_world
  = bind (take_turn 11 (VInt 6) 20 (select_dice test_four_sided all_sixes 4 20))
         (fun delta =>
            let score' := 4 + delta in
            let swap := (score' =? 2 * 20) || (20 =? 2 * score') in
            let score'' := if swap then 20 else score' in
            let opponent_score'' := if swap then score' else 20 in
            play_loop test_four_sided all_sixes 11 (always_roll (VInt 6))
                      final_strategy 100 (1 - 0) opponent_score'' score'')
         initial_world /\
  play test_four_sided all_sixes 300 (always_roll (VInt 6)) final_strategy 100
       initial_world
  = play_by_player test_four_sided all_sixes 300 (always_roll (VInt 6))
                   final_strategy 100 initial_world.
Proof.
  destruct (play_turn_order_and_result test_four_sided all_sixes
              (always_roll (VInt 6)) final_strategy 100)
    as (Hstep & _ & Hplay).
  split.
  - apply (Hstep 11%nat 0 4 20 initial_world). cbn. lia.
  - apply Hplay.
Defined.




Lemma swaps_keep_both_scores_witness :
  let w1 : World (nat * nat) :=
    {| rng := (0%nat, 0%nat); rolled := [6; 6; 6; 6; 6; 6]; printed := [] |} in
  Permutation [20; 40] [4 + 36; 20] /\
  Permutation [40; 20] [20; 40] /\
  Z.max 40 20 = Z.max (4 + 36) 20 /\
  play_loop test_four_sided all_sixes 12 (always_roll (VInt 6)) final_strategy
            100 0 4 20 initial_world
  = play_loop test_four_sided all_sixes 11 (always_roll (VInt 6))
              final_strategy 100 1 40 20 w1 /\
  (30 <= Z.max (4 + 36) 20 ->
   play_loop test_four_sided all_sixes 12 (always_roll (VInt 6)) final_strategy
             30 0 4 20 initial_world
   = Ret (1, 40, 20) w1).
Proof.
  intros w1.
  assert (E : take_turn 11 (always_roll (VInt 6) 4 20) 20
                        (select_dice test_four_sided all_sixes 4 20)
                        initial_world = Ret 36 w1) by reflexivity.
  assert (H100 := @swaps_keep_both_scores _ test_four_sided all_sixes
                    (always_roll (VInt 6)) final_strategy 100 10 0 4 20
                    initial_world 36 w1 ltac:(cbn; lia) E).
  assert (H30 := @swaps_keep_both_scores _ test_four_sided all_sixes
                   (always_roll (VInt 6)) final_strategy 30 10 0 4 20
                   initial_world 36 w1 ltac:(cbn; lia) E).
  cbv zeta in H100, H30.
  destruct H100 as (P1 & P2 & Hmax & Hstep & _).
  destruct H30 as (_ & _ & _ & _ & Hexit).
  refine (conj P1 (conj P2 (conj Hmax (conj Hstep Hexit)))).
Defined.

(** * Facts about the experiments *)

Section HarnessFacts.

Variable DS : Type.
Variable four_sided six_sided : Dice DS.

Implicit Types (dice : Dice DS) (w : World DS) (fuel : nat).

(** ** Averaging *)

Lemma samples_length {A} (fn : A -> M DS Z) args n w rs w' :
  samples fn args n w rs w' -> List.length rs = n.
Proof. induction 1; cbn; congruence. Qed.

Lemma samples_Forall {A} (fn : A -> M DS Z) args (P : Z -> Prop) :
  (forall w r w', fn args w = Ret r w' -> P r) ->
  forall n w rs w', samples fn args n w rs w' -> Forall P rs.
Proof.
  intros HP n w rs w' H. induction H as [|n w r w1 rs w' E _ IH].
  - constructor.
  - constructor; [now apply (HP w r w1) | exact IH].
Qed.

(** The loop of [average] calls [fn] once per remaining sample and adds
    up what it returns, provided [fn] returns, and returns the same,
    whenever it is given at least [enough] fuel. *)
Lemma average_loop_spec {A} (fn : nat -> A -> M DS Z) args enough
    num_samples :
  (forall fuel w, (enough <= fuel)%nat ->
     exists r w', fn fuel args w = Ret r w' /\ fn enough args w = Ret r w') ->
  forall n fuel i total w,
    num_samples - i = Z.of_nat n -> (n + enough < fuel)%nat ->
    exists rs w',
      samples (fn enough) args n w rs w' /\
      average_loop fuel fn num_samples args i total w
      = Ret (total + sum_list rs) w'.
Proof.
  intros Hfn. induction n as [|n IH]; intros fuel i total w Hn Hfuel;
    (destruct fuel as [|fuel]; [lia|]); cbn [average_loop].
  - exists [], w. split; [constructor|].
    replace (i <? num_samples) with false by (symmetry; apply Z.ltb_ge; lia).
    cbn. now rewrite Z.add_0_r.
  - replace (i <? num_samples) with true by (symmetry; apply Z.ltb_lt; lia).
    destruct (Hfn fuel w ltac:(lia)) as (r & w1 & E & E0).
    destruct (IH fuel (i + 1) (total + r) w1 ltac:(lia) ltac:(lia))
      as (rs & w' & Hs & Hl).
    exists (r :: rs), w'. split; [now apply samples_cons with (w1 := w1)|].
    erewrite bind_Ret by exact E. rewrite Hl. cbn [sum_list fold_right].
    f_equal. unfold sum_list. lia.
Qed.

(** [make_averaged fn 1000] divides the sum of 1000 samples by 1000. *)
Lemma make_averaged_1000 {A} (fn : nat -> A -> M DS Z) args enough fuel w :
  (forall fuel w, (enough <= fuel)%nat ->
     exists r w', fn fuel args w = Ret r w' /\ fn enough args w = Ret r w') ->
  (1000 + enough < fuel)%nat ->
  exists rs w',
    samples (fn enough) args 1000 w rs w' /\
    make_averaged fn 1000 fuel args w = @truediv DS (sum_list rs) 1000 w' /\
    float_div (int_operand (sum_list rs)) (int_operand 1000) = mean rs.
Proof.
  intros Hfn Hfuel.
  destruct (@average_loop_spec A fn args enough 1000 Hfn 1000%nat fuel 0 0 w
              ltac:(lia) Hfuel) as (rs & w' & Hs & E).
  exists rs, w'. split; [exact Hs|]. split.
  - unfold make_averaged. erewrite bind_Ret by exact E. reflexivity.
  - unfold mean. now rewrite (samples_length Hs).
Qed.

(** ** Games that return *)

Lemma play_returns strategy0 strategy1 goal fuel w :
  valid_strategy strategy0 -> valid_strategy strategy1 ->
  positive_dice four_sided -> positive_dice six_sided ->
  goal <= 100 -> (Z.to_nat (2 * goal) + 12 <= fuel)%nat ->
  exists final_score0 final_score1 w',
    play four_sided six_sided fuel strategy0 strategy1 goal w
    = Ret (final_score0, final_score1) w' /\
    goal <= Z.max final_score0 final_score1.
Proof.
  intros Hs0 Hs1 H4 H6 Hgoal Hfuel.
  destruct (@play_loop_halts _ four_sided six_sided strategy0 strategy1 goal
              Hs0 Hs1 H4 H6 (Z.to_nat (2 * goal)) fuel 0 0 0 w
              ltac:(lia) ltac:(lia) ltac:(lia) Hfuel)
    as [(who & score & opp & w' & E & Hmax) | (Hbig & _)]; [|lia].
  rewrite play_unfold. erewrite bind_Ret by exact E. unfold by_player, ret.
  destruct (who =? 0); eexists _, _, _; (split; [reflexivity|lia]).
Qed.

Lemma winner_returns strategy0 strategy1 fuel w :
  valid_strategy strategy0 -> valid_strategy strategy1 ->
  positive_dice four_sided -> positive_dice six_sided ->
  (212 <= fuel)%nat ->
  exists r w',
    winner four_sided six_sided fuel strategy0 strategy1 w = Ret r w' /\
    winner four_sided six_sided 212 strategy0 strategy1 w = Ret r w' /\
    (r = 0 \/ r = 1).
Proof.
  intros Hs0 Hs1 H4 H6 Hfuel.
  destruct (@play_returns strategy0 strategy1 GOAL_SCORE 212 w Hs0 Hs1 H4 H6
              ltac:(unfold GOAL_SCORE; lia) ltac:(cbn; lia))
    as (a & b & w' & E & _).
  assert (E' : play four_sided six_sided fuel strategy0 strategy1
                    GOAL_SCORE w = Ret (a, b) w').
  { rewrite <- E.
    apply (@play_monotone _ four_sided six_sided strategy0 strategy1
             GOAL_SCORE 212%nat fuel w Hfuel).
    rewrite E. discriminate. }
  exists (if a >? b then 0 else 1), w'. unfold winner.
  erewrite !bind_Ret by eassumption. cbv beta iota.
  destruct (a >? b); auto.
Qed.

End HarnessFacts.

(** ** The win rates of a batch of 1000 games *)

Lemma rate_table_eq : rate_table = map rate counts.
Proof. vm_compute. reflexivity. Qed.

Lemma prim_rate_table_eq : prim_rate_table = map SF2Prim rate_table.
Proof. vm_compute. reflexivity. Qed.

Lemma rate_in_table (k : Z) : 0 <= k <= 1000 -> In (rate k) rate_table.
Proof.
  intros H. rewrite rate_table_eq. apply in_map. unfold counts.
  rewrite <- (Z2Nat.id k) by lia. apply in_map. apply in_seq. lia.
Qed.

Lemma rate_table_valid : forallb valid_binary rate_table = true.
Proof. vm_compute. reflexivity. Qed.

Lemma rate_table_finite :
  forallb (fun x => negb (is_infinity x)) rate_table = true.
Proof. vm_compute. reflexivity. Qed.

(** All 1001 * 1001 pairs of rates, checked on the primitive floats. *)
Lemma win_rate_prim_table :
  forallb (fun a =>
             forallb (fun b => in_unit_interval_prim (win_rate_prim a b))
                     prim_rate_table)
          prim_rate_table = true.
Proof. vm_compute. reflexivity. Qed.

(** The primitive operations compute what [SFsub], [SFadd], [SFdiv] and
    [SFleb] specify. *)
Lemma win_rate_prim_correct (a b : pyfloat) :
  valid_binary a = true -> valid_binary b = true ->
  Prim2SF (win_rate_prim (SF2Prim a) (SF2Prim b)) = win_rate a b /\
  in_unit_interval_prim (win_rate_prim (SF2Prim a) (SF2Prim b))
  = in_unit_interval (win_rate a b).
Proof.
  intros Ha Hb.
  assert (E : Prim2SF (win_rate_prim (SF2Prim a) (SF2Prim b)) = win_rate a b).
  { unfold win_rate_prim, win_rate.
    rewrite div_spec, add_spec, sub_spec.
    rewrite !Prim2SF_SF2Prim by assumption. reflexivity. }
  split; [exact E|].
  unfold in_unit_interval_prim, in_unit_interval, float_le.
  rewrite !leb_spec, E. reflexivity.
Qed.

Lemma win_rate_in_unit_interval (k m : Z) :
  0 <= k <= 1000 -> 0 <= m <= 1000 ->
  in_unit_interval (win_rate (rate k) (rate m)) = true /\
  valid_binary (win_rate (rate k) (rate m)) = true.
Proof.
  intros Hk Hm.
  pose proof (rate_in_table Hk) as Ik. pose proof (rate_in_table Hm) as Im.
  pose proof rate_table_valid as Hv. rewrite forallb_forall in Hv.
  destruct (@win_rate_prim_correct (rate k) (rate m) (Hv _ Ik) (Hv _ Im))
    as [E1 E2].
  split.
  - rewrite <- E2.
    pose proof win_rate_prim_table as Ht. rewrite forallb_forall in Ht.
    assert (Pk : In (SF2Prim (rate k)) prim_rate_table)
      by (rewrite prim_rate_table_eq; now apply in_map).
    assert (Pm : In (SF2Prim (rate m)) prim_rate_table)
      by (rewrite prim_rate_table_eq; now apply in_map).
    specialize (Ht _ Pk). rewrite forallb_forall in Ht. exact (Ht _ Pm).
  - rewrite <- E1. apply Prim2SF_valid.
Qed.

Lemma truediv_rate (DS : Type) (k : Z) (w : World DS) :
  0 <= k <= 1000 -> truediv k 1000 w = Ret (rate k) w.
Proof.
  intros Hk. unfold truediv. cbn [Z.eqb].
  pose proof rate_table_finite as Hf. rewrite forallb_forall in Hf.
  specialize (Hf _ (rate_in_table Hk)). unfold rate in *.
  now destruct (float_div (int_operand k) (int_operand 1000)).
Qed.

Lemma sum_list_of_bits (rs : list Z) :
  Forall (fun r => r = 0 \/ r = 1) rs ->
  0 <= sum_list rs <= Z.of_nat (List.length rs).
Proof.
  induction 1 as [|r rs Hr _ IH]; cbn [sum_list fold_right List.length].
  - lia.
  - unfold sum_list in IH. lia.
Qed.

Section WinRate.

Variable DS : Type.
Variable four_sided six_sided : Dice DS.

Lemma winner_args_pair strategy0 strategy1 fuel (w : World DS) :
  winner_args four_sided six_sided fuel (strategy0, strategy1) w
  = winner four_sided six_sided fuel strategy0 strategy1 w.
Proof. reflexivity. Qed.

Lemma averaged_winner strategy0 strategy1 fuel (w : World DS) :
  valid_strategy strategy0 -> valid_strategy strategy1 ->
  positive_dice four_sided -> positive_dice six_sided ->
  (1213 <= fuel)%nat ->
  exists games w',
    samples (winner_args four_sided six_sided 212) (strategy0, strategy1)
            1000 w games w' /\
    make_averaged (winner_args four_sided six_sided) 1000 fuel
                  (strategy0, strategy1) w
    = Ret (mean games) w' /\
    mean games = rate (sum_list games) /\
    0 <= sum_list games <= 1000.
Proof.
  intros Hs0 Hs1 H4 H6 Hfuel.
  assert (Hfn : forall fuel' (w0 : World DS), (212 <= fuel')%nat ->
            exists r w',
              winner_args four_sided six_sided fuel' (strategy0, strategy1) w0
              = Ret r w' /\
              winner_args four_sided six_sided 212 (strategy0, strategy1) w0
              = Ret r w').
  { intros fuel' w0 Hf.
    destruct (@winner_returns _ four_sided six_sided strategy0 strategy1
                fuel' w0 Hs0 Hs1 H4 H6 Hf) as (r & w' & E1 & E2 & _).
    exists r, w'. rewrite !winner_args_pair. now split. }
  destruct (@make_averaged_1000 _ _ (winner_args four_sided six_sided)
              (strategy0, strategy1) 212%nat fuel w Hfn ltac:(lia))
    as (games & w' & Hs & E & Hmean).
  assert (Hbits : Forall (fun r => r = 0 \/ r = 1) games).
  { refine (@samples_Forall _ _ (winner_args four_sided six_sided 212)
              (strategy0, strategy1) (fun r => r = 0 \/ r = 1) _ _ _ _ _ Hs).
    intros w0 r w1 Er.
    destruct (@winner_returns _ four_sided six_sided strategy0 strategy1
                212%nat w0 Hs0 Hs1 H4 H6 ltac:(lia)) as (r' & w1' & E1 & _ & Hr).
    rewrite winner_args_pair, E1 in Er. now injection Er as <- _. }
  pose proof (sum_list_of_bits Hbits) as Hsum.
  rewrite (samples_length Hs) in Hsum.
  exists games, w'. split; [exact Hs|]. split; [|split].
  - rewrite E, truediv_rate by lia. now rewrite <- Hmean.
  - now rewrite <- Hmean.
  - lia.
Qed.

(** C5.  With valid strategies and positive dice, [average_win_rate] plays
    1000 games with [strategy] as player 0 and then 1000 games with
    [strategy] as player 1, and returns the float
    [((1 - rate0) + rate1) / 2], where [rate0] and [rate1] are the means of
    [winner] over the first and the second batch; this float is a valid
    binary64 number between 0 and 1. *)
Theorem average_win_rate_is_mean_of_both_roles strategy baseline fuel
    (w : World DS) :
  valid_strategy strategy -> valid_strategy baseline ->
  positive_dice four_sided -> positive_dice six_sided ->
  (1213 <= fuel)%nat ->
  exists games0 games1 w1 w2 result,
    samples (winner_args four_sided six_sided 212) (strategy, baseline)
            1000 w games0 w1 /\
    samples (winner_args four_sided six_sided 212) (baseline, strategy)
            1000 w1 games1 w2 /\
    average_win_rate four_sided six_sided fuel strategy baseline w
    = Ret result w2 /\
    result
    = float_div (float_add (float_sub (float_of_int 1) (mean games0))
                           (mean games1))
                (float_of_int 2) /\
    valid_binary result = true /\
    float_le (float_of_int 0) result = true /\
    float_le result (float_of_int 1) = true.
Proof.
  intros Hs Hb H4 H6 Hfuel.
  destruct (@averaged_winner strategy baseline fuel w Hs Hb H4 H6 Hfuel)
    as (games0 & w1 & S0 & E0 & M0 & B0).
  destruct (@averaged_winner baseline strategy fuel w1 Hb Hs H4 H6 Hfuel)
    as (games1 & w2 & S1 & E1 & M1 & B1).
  exists games0, games1, w1, w2, (win_rate (mean games0) (mean games1)).
  split; [exact S0|]. split; [exact S1|]. split; [|split; [reflexivity|]].
  - unfold average_win_rate.
    erewrite bind_Ret by exact E0. erewrite bind_Ret by exact E1.
    reflexivity.
  - rewrite M0, M1.
    destruct (win_rate_in_unit_interval B0 B1) as [Hin Hvalid].
    unfold in_unit_interval in Hin. apply andb_true_iff in Hin.
    split; [exact Hvalid | exact Hin].
Qed.

End WinRate.

Lemma average_win_rate_is_mean_of_both_roles_witness :
  exists games0 games1 w1 w2 result,
    samples (winner_args test_four_sided test_six_sided 212)
            (final_strategy, always_roll (VInt 5)) 1000 initial_world
            games0 w1 /\
    samples (winner_args test_four_sided test_six_sided 212)
            (always_roll (VInt 5), final_strategy) 1000 w1 games1 w2 /\
    average_win_rate test_four_sided test_six_sided 1213 final_strategy
                     (always_roll (VInt 5)) initial_world
    = Ret result w2 /\
    result
    = float_div (float_add (float_sub (float_of_int 1) (mean games0))
                           (mean games1))
                (float_of_int 2) /\
    valid_binary result = true /\
    float_le (float_of_int 0) result = true /\
    float_le result (float_of_int 1) = true.
Proof.
  apply (@average_win_rate_is_mean_of_both_roles _ test_four_sided
           test_six_sided final_strategy (always_roll (VInt 5)) 1213
           initial_world).
  - exact final_strategy_valid.
  - apply always_roll_valid. lia.
  - exact test_four_sided_positive.
  - exact test_six_sided_positive.
  - lia.
Defined.

(** ** Quotients of positive integers as floats *)

Lemma digits2_pos_lower (p : positive) :
  2 ^ (Z.pos (digits2_pos p) - 1) <= Z.pos p.
Proof.
  induction p as [p IH|p IH|]; cbn [digits2_pos].
  - rewrite Pos2Z.inj_succ, (Pos2Z.inj_xI p).
    replace (Z.succ (Z.pos (digits2_pos p)) - 1)
      with (Z.succ (Z.pos (digits2_pos p) - 1)) by lia.
    rewrite Z.pow_succ_r by lia. lia.
  - rewrite Pos2Z.inj_succ, (Pos2Z.inj_xO p).
    replace (Z.succ (Z.pos (digits2_pos p)) - 1)
      with (Z.succ (Z.pos (digits2_pos p) - 1)) by lia.
    rewrite Z.pow_succ_r by lia. lia.
  - cbn. lia.
Qed.

Lemma shr_1_half (mrs : shr_record) :
  0 <= shr_m mrs -> shr_m (shr_1 mrs) = shr_m mrs / 2.
Proof.
  destruct mrs as [m r s]. cbn [shr_m]. intros Hm.
  rewrite <- Z.div2_div.
  destruct m as [|[p|p|]|p]; try reflexivity. lia.
Qed.

Lemma iter_shr_1 (p : positive) :
  forall mrs,
    0 <= shr_m mrs ->
    shr_m (iter_pos shr_1 p mrs) = shr_m mrs / 2 ^ Z.pos p.
Proof.
  induction p as [p IH|p IH|]; intros mrs Hm; cbn [iter_pos].
  - assert (H1 : 0 <= shr_m (shr_1 mrs))
      by (rewrite shr_1_half by lia; apply Z.div_pos; lia).
    assert (H2 : 0 <= shr_m (iter_pos shr_1 p (shr_1 mrs)))
      by (rewrite IH by lia; apply Z.div_pos; [lia | apply Z.pow_pos_nonneg; lia]).
    rewrite IH by exact H2. rewrite IH by exact H1. rewrite shr_1_half by lia.
    assert (Hp : 0 < 2 ^ Z.pos p) by (apply Z.pow_pos_nonneg; lia).
    rewrite !Z.div_div by lia.
    replace (Z.pos p~1) with (1 + Z.pos p + Z.pos p) by lia.
    rewrite !Z.pow_add_r by lia. f_equal. change (2 ^ 1) with 2. lia.
  - assert (H1 : 0 <= shr_m (iter_pos shr_1 p mrs))
      by (rewrite IH by lia; apply Z.div_pos; [lia | apply Z.pow_pos_nonneg; lia]).
    rewrite IH by exact H1. rewrite IH by exact Hm.
    assert (Hp : 0 < 2 ^ Z.pos p) by (apply Z.pow_pos_nonneg; lia).
    rewrite Z.div_div by lia.
    replace (Z.pos p~0) with (Z.pos p + Z.pos p) by lia.
    rewrite Z.pow_add_r by lia. reflexivity.
  - rewrite shr_1_half by exact Hm. reflexivity.
Qed.

Lemma shr_record_of_loc_m (m : Z) (l : location) :
  shr_m (shr_record_of_loc m l) = m.
Proof. now destruct l as [|[]]. Qed.

(** Shifting a positive mantissa down to its canonical exponent leaves it
    positive, as long as the exponent starts at [emin] or above. *)
Lemma shr_fexp_positive (m e : Z) (l : location) :
  0 < m -> emin <= e ->
  0 < shr_m (fst (shr_fexp prec emax m e l)) /\
  emin <= snd (shr_fexp prec emax m e l).
Proof.
  intros Hm He. unfold shr_fexp, shr.
  destruct m as [|p|p]; try lia. cbn [Zdigits2].
  pose proof (digits2_pos_lower p) as Hd.
  set (d := Z.pos (digits2_pos p)) in *.
  unfold fexp. fold emin.
  destruct (Z.max (d + e - prec) emin - e) as [|n|n] eqn:En; cbn [fst snd];
    rewrite ?shr_record_of_loc_m; try (split; lia).
  assert (Hn : Z.pos n = d - prec) by lia.
  rewrite iter_shr_1 by (rewrite shr_record_of_loc_m; lia).
  rewrite shr_record_of_loc_m. split; [|lia].
  apply Z.div_str_pos. split; [apply Z.pow_pos_nonneg; lia|].
  apply Z.le_trans with (2 ^ (d - 1)); [|exact Hd].
  apply Z.pow_le_mono_r; [lia|]. rewrite Hn. unfold prec. lia.
Qed.

Lemma round_nearest_even_ge (m : Z) (l : location) :
  m <= round_nearest_even m l.
Proof.
  unfold round_nearest_even. destruct l as [|[]]; try lia.
  destruct (Z.even m); lia.
Qed.

Lemma binary_round_aux_positive (s : bool) (mx ex : Z) (lx : location) :
  0 < mx -> emin <= ex ->
  (exists m e, binary_round_aux prec emax s mx ex lx = S754_finite s m e) \/
  binary_round_aux prec emax s mx ex lx = S754_infinity s.
Proof.
  intros Hm He. unfold binary_round_aux.
  destruct (shr_fexp_positive lx Hm He) as [H1 H2].
  destruct (shr_fexp prec emax mx ex lx) as [mrs' e']. cbn [fst snd] in *.
  pose proof (round_nearest_even_ge (shr_m mrs') (loc_of_shr_record mrs')) as Hr.
  destruct (@shr_fexp_positive
              (round_nearest_even (shr_m mrs') (loc_of_shr_record mrs'))
              e' loc_Exact ltac:(lia) H2) as [H3 H4].
  destruct (shr_fexp prec emax _ e' loc_Exact) as [mrs'' e''].
  cbn [fst snd] in *.
  destruct (shr_m mrs'') as [|m|m]; try lia.
  destruct (e'' <=? emax - prec); [left; now exists m, e'' | now right].
Qed.

Lemma SFdiv_core_binary_positive (pa pb : positive) :
  Z.pos pb <= Z.pos pa ->
  0 < fst (fst (SFdiv_core_binary prec emax (Z.pos pa) 0 (Z.pos pb) 0)) /\
  emin <= snd (fst (SFdiv_core_binary prec emax (Z.pos pa) 0 (Z.pos pb) 0)).
Proof.
  intros H. unfold SFdiv_core_binary.
  set (e' := Z.min _ _).
  assert (He' : emin <= e' <= 0).
  { subst e'. unfold fexp. fold emin. unfold emin, SpecFloat.emin, emax, prec.
    lia. }
  set (m' := match 0 - 0 - e' with
             | 0 => Z.pos pa
             | Z.pos _ => _
             | Z.neg _ => 0
             end).
  assert (Hm' : Z.pos pa <= m').
  { subst m'. destruct (0 - 0 - e') as [|s|s] eqn:Es; try lia.
    rewrite Z.shiftl_mul_pow2 by lia.
    assert (0 < 2 ^ Z.pos s) by (apply Z.pow_pos_nonneg; lia). nia. }
  assert (Hq : 0 < m' / Z.pos pb) by (apply Z.div_str_pos; lia).
  unfold Z.div in Hq. destruct (Z.div_eucl m' (Z.pos pb)) as [q r].
  cbn [fst snd] in *. lia.
Qed.

(** The quotient of two positive integers [a >= b] is a positive finite
    float, unless it overflows. *)
Lemma float_div_positive (a b : Z) :
  0 < b <= a ->
  positive_finite (float_div (int_operand a) (int_operand b)) = true \/
  float_div (int_operand a) (int_operand b) = S754_infinity false.
Proof.
  intros H. destruct a as [|pa|pa]; try lia. destruct b as [|pb|pb]; try lia.
  unfold float_div, int_operand, SFdiv.
  destruct (@SFdiv_core_binary_positive pa pb ltac:(lia)) as [Hq He].
  destruct (SFdiv_core_binary prec emax (Z.pos pa) 0 (Z.pos pb) 0)
    as [[q e] l].
  cbn [fst snd xorb] in *.
  destruct (@binary_round_aux_positive false q e l Hq He)
    as [(m & e1 & ->) | ->]; [now left | now right].
Qed.

(** *** No overflow below [2 ^ 1014] *)

Lemma Zdigits2_upper (x k : Z) :
  0 < x < 2 ^ k -> 0 <= k -> Zdigits2 x <= k.
Proof.
  intros Hx Hk. destruct x as [|p|p]; try lia. cbn [Zdigits2].
  pose proof (digits2_pos_lower p) as Hd.
  destruct (Z_le_gt_dec (Z.pos (digits2_pos p)) k) as [H|H]; [exact H|].
  exfalso.
  assert (2 ^ k <= 2 ^ (Z.pos (digits2_pos p) - 1))
    by (apply Z.pow_le_mono_r; lia).
  lia.
Qed.

Lemma fexp_monotone (x y : Z) :
  x <= y -> fexp prec emax x <= fexp prec emax y.
Proof. unfold fexp. lia. Qed.

(** [shr_fexp] moves the exponent up to the canonical one and divides the
    mantissa accordingly. *)
Lemma shr_fexp_bounds (m e : Z) (l : location) (D : Z) :
  0 < m < 2 ^ D -> 0 <= D -> emin <= e ->
  let e1 := snd (shr_fexp prec emax m e l) in
  e <= e1 /\ e1 <= Z.max e (fexp prec emax (D + e)) /\
  D + e - e1 >= 0 /\
  shr_m (fst (shr_fexp prec emax m e l)) < 2 ^ (D + e - e1).
Proof.
  intros Hm HD He. cbv zeta. unfold shr_fexp, shr.
  pose proof (@Zdigits2_upper m D Hm HD) as Hd.
  pose proof (@fexp_monotone (Zdigits2 m + e) (D + e) ltac:(lia)) as Hf.
  destruct m as [|p|p]; try lia.
  pose proof (digits2_pos_lower p) as Hlow. cbn [Zdigits2] in *.
  set (d := Z.pos (digits2_pos p)) in *.
  destruct (fexp prec emax (d + e) - e) as [|n|n] eqn:En; cbn [fst snd];
    rewrite ?shr_record_of_loc_m.
  - replace (D + e - e) with D by lia.
    split; [lia | split; [lia | split; lia]].
  - assert (Hn : Z.pos n <= d - prec) by (unfold fexp in En; fold emin in En; lia).
    assert (Hprec : prec = 53) by reflexivity.
    rewrite iter_shr_1 by (rewrite shr_record_of_loc_m; lia).
    rewrite shr_record_of_loc_m.
    split; [lia | split; [lia | split; [lia|]]].
    apply Z.div_lt_upper_bound; [apply Z.pow_pos_nonneg; lia|].
    rewrite <- Z.pow_add_r by lia.
    replace (Z.pos n + (D + e - (e + Z.pos n))) with D by lia. lia.
  - replace (D + e - e) with D by lia.
    split; [lia | split; [lia | split; lia]].
Qed.

Lemma binary_round_aux_finite (s : bool) (mx ex : Z) (lx : location) (D : Z) :
  0 < mx < 2 ^ D -> 0 <= D -> emin <= ex ->
  Z.max ex (fexp prec emax (D + ex + 1)) <= emax - prec ->
  exists m e, binary_round_aux prec emax s mx ex lx = S754_finite s m e.
Proof.
  intros Hm HD He Hbound. unfold binary_round_aux.
  destruct (@shr_fexp_positive mx ex lx ltac:(lia) He) as [H1 H2].
  destruct (@shr_fexp_bounds mx ex lx D Hm HD He) as (B1 & B2 & B3 & B4).
  destruct (shr_fexp prec emax mx ex lx) as [mrs' e']. cbn [fst snd] in *.
  set (m2 := round_nearest_even (shr_m mrs') (loc_of_shr_record mrs')).
  assert (Hm2 : shr_m mrs' <= m2 <= shr_m mrs' + 1).
  { subst m2. unfold round_nearest_even.
    destruct (loc_of_shr_record mrs') as [|[]]; try lia.
    destruct (Z.even (shr_m mrs')); lia. }
  assert (Hm2' : 0 < m2 < 2 ^ (D + ex - e' + 1)).
  { rewrite Z.pow_add_r by lia. change (2 ^ 1) with 2. lia. }
  destruct (@shr_fexp_positive m2 e' loc_Exact ltac:(lia) H2) as [H3 H4].
  destruct (@shr_fexp_bounds m2 e' loc_Exact (D + ex - e' + 1) Hm2'
              ltac:(lia) H2) as (C1 & C2 & _ & _).
  destruct (shr_fexp prec emax m2 e' loc_Exact) as [mrs'' e''].
  cbn [fst snd] in *.
  replace (D + ex - e' + 1 + e') with (D + ex + 1) in C2 by lia.
  pose proof (@fexp_monotone (D + ex) (D + ex + 1) ltac:(lia)) as Hf.
  destruct (shr_m mrs'') as [|m|m]; try lia.
  replace (e'' <=? emax - prec) with true
    by (symmetry; apply Z.leb_le; lia).
  now exists m, e''.
Qed.

(** A total below [2 ^ 1014] divided by 1000 does not overflow. *)
Lemma float_div_1000_finite (total : Z) :
  1000 <= total < 2 ^ 1014 ->
  positive_finite (float_div (int_operand total) (int_operand 1000)) = true.
Proof.
  intros H. destruct total as [|pa|pa]; try lia.
  unfold float_div, int_operand, SFdiv.
  destruct (@SFdiv_core_binary_positive pa 1000 ltac:(lia)) as [Hq He].
  assert (Hcore :
    exists s, 0 <= s /\
      snd (fst (SFdiv_core_binary prec emax (Z.pos pa) 0 1000 0)) = - s /\
      fst (fst (SFdiv_core_binary prec emax (Z.pos pa) 0 1000 0))
      < 2 ^ (1014 + s)).
  { unfold SFdiv_core_binary.
    set (e' := Z.min _ _).
    assert (He' : e' <= 0) by (subst e'; lia).
    exists (- e'). split; [lia|].
    set (m' := match 0 - 0 - e' with
               | 0 => Z.pos pa
               | Z.pos _ => _
               | Z.neg _ => 0
               end).
    assert (Hm' : 0 < m' < 2 ^ (1014 + - e')).
    { subst m'. destruct (0 - 0 - e') as [|s|s] eqn:Es; try lia.
      - replace (1014 + - e') with 1014 by lia. lia.
      - rewrite Z.shiftl_mul_pow2 by lia.
        replace (- e') with (Z.pos s) by lia.
        rewrite Z.pow_add_r by lia.
        assert (0 < 2 ^ Z.pos s) by (apply Z.pow_pos_nonneg; lia). nia. }
    assert (Hq' : m' / 1000 < 2 ^ (1014 + - e')).
    { apply Z.div_lt_upper_bound; [lia|].
      assert (0 < 2 ^ (1014 + - e')) by (apply Z.pow_pos_nonneg; lia). lia. }
    unfold Z.div in Hq'. destruct (Z.div_eucl m' 1000) as [q r].
    cbn [fst snd] in *. split; [lia | exact Hq']. }
  destruct Hcore as (s & Hs & Ee & Hlt).
  destruct (SFdiv_core_binary prec emax (Z.pos pa) 0 1000 0) as [[q e] l].
  cbn [fst snd xorb] in *. subst e.
  destruct (@binary_round_aux_finite false q (- s) l (1014 + s)
              ltac:(lia) ltac:(lia) He) as (m & e1 & ->); [|reflexivity].
  replace (1014 + s + - s + 1) with 1015 by lia.
  unfold fexp, emin, SpecFloat.emin, emax, prec. lia.
Qed.

(** ** Comparing averages *)

Lemma float_lt_finite (m1 m2 : positive) (e1 e2 : Z) :
  float_lt (S754_finite false m1 e1) (S754_finite false m2 e2) = true <->
  e1 < e2 \/ (e1 = e2 /\ Z.pos m1 < Z.pos m2).
Proof.
  unfold float_lt, SFltb, SFcompare.
  change (Pos.compare_cont Eq m1 m2) with (Pos.compare m1 m2).
  destruct (Z.compare_spec e1 e2); [destruct (Pos.compare_spec m1 m2)| |];
    split; intros; try discriminate; try reflexivity; try lia.
Qed.

Lemma float_lt_zero (x : pyfloat) :
  positive_finite x = true -> float_lt (float_of_int 0) x = true.
Proof. destruct x as [| | |[] m e]; try discriminate. reflexivity. Qed.

Lemma float_lt_irrefl (x : pyfloat) :
  positive_finite x = true -> float_lt x x = false.
Proof.
  destruct x as [| | |[] m e]; try discriminate. intros _.
  destruct (float_lt (S754_finite false m e) (S754_finite false m e)) eqn:E;
    [|reflexivity].
  apply float_lt_finite in E. lia.
Qed.

(** If [best] is below [x] and [a] is not above [best], then [a] is below
    [x] and [x] is not below [a]. *)
Lemma float_lt_new_best (best x a : pyfloat) :
  positive_finite best = true -> positive_finite x = true ->
  positive_finite a = true ->
  float_lt best x = true -> float_lt best a = false ->
  float_lt a x = true /\ float_lt x a = false.
Proof.
  destruct best as [| | |[] mb eb]; try discriminate.
  destruct x as [| | |[] mx ex]; try discriminate.
  destruct a as [| | |[] ma ea]; try discriminate.
  intros _ _ _ Hbx Hba.
  apply float_lt_finite in Hbx.
  assert (Hba' : ~ (eb < ea \/ (eb = ea /\ Z.pos mb < Z.pos ma)))
    by (intros H; apply float_lt_finite in H; congruence).
  split.
  - apply float_lt_finite. lia.
  - destruct (float_lt (S754_finite false mx ex) (S754_finite false ma ea))
      eqn:E; [|reflexivity].
    apply float_lt_finite in E. lia.
Qed.

Lemma numbered_app (roll : Z) (l : list pyfloat) (x : pyfloat) :
  numbered roll (l ++ [x])
  = numbered roll l ++ [(roll + Z.of_nat (List.length l), x)].
Proof.
  revert roll; induction l as [|a l IH]; intros roll.
  - cbn. now rewrite Z.add_0_r.
  - cbn [numbered app List.length]. rewrite IH. cbn [app].
    replace (roll + Z.of_nat (S (List.length l)))
      with (roll + 1 + Z.of_nat (List.length l)) by lia.
    reflexivity.
Qed.

(** Folding [keep_higher] over the numbered averages selects the first
    position of the highest average. *)
Lemma keep_higher_first_maximum (avs : list pyfloat) :
  Forall (fun a => positive_finite a = true) avs -> avs <> [] ->
  exists i,
    (i < List.length avs)%nat /\
    fold_left keep_higher (numbered 1 avs) (0, float_of_int 0)
    = (Z.of_nat i + 1, nth i avs (float_of_int 0)) /\
    (forall j, (j < List.length avs)%nat ->
       float_lt (nth i avs (float_of_int 0)) (nth j avs (float_of_int 0))
       = false) /\
    (forall j, (j < i)%nat ->
       float_lt (nth j avs (float_of_int 0)) (nth i avs (float_of_int 0))
       = true).
Proof.
  induction avs as [|x l IH] using rev_ind; intros Hall Hne; [congruence|].
  apply Forall_app in Hall as [Hl Hx]. inversion Hx as [|? ? Hx' _]; subst.
  rewrite numbered_app, fold_left_app. cbn [fold_left].
  destruct l as [|a l'] eqn:El.
  - exists 0%nat. cbn. unfold keep_higher. cbn [snd].
    rewrite float_lt_zero by exact Hx'. repeat split.
    + lia.
    + intros [|j] Hj; [now apply float_lt_irrefl | cbn in Hj; lia].
    + intros j Hj. lia.
  - rewrite <- El in *. assert (Hne' : l <> []) by (subst l; discriminate).
    destruct (IH Hl Hne') as (i & Hi & -> & Hmax & Hfirst).
    clear IH. rewrite length_app. cbn [List.length].
    set (zero := float_of_int 0) in *.
    assert (Hpos : forall j, (j < List.length l)%nat ->
                     positive_finite (nth j l zero) = true).
    { intros j Hj. rewrite Forall_forall in Hl. apply Hl. now apply nth_In. }
    assert (Hnth : forall j, (j < List.length l)%nat ->
                     nth j (l ++ [x]) zero = nth j l zero)
      by (intros j Hj; now apply app_nth1).
    assert (Hlast : nth (List.length l) (l ++ [x]) zero = x)
      by (rewrite app_nth2 by lia; now rewrite Nat.sub_diag).
    unfold keep_higher. cbn [snd].
    destruct (float_lt (nth i l zero) x) eqn:Ex.
    + assert (Hnew : forall j, (j < List.length l)%nat ->
                       float_lt (nth j l zero) x = true /\
                       float_lt x (nth j l zero) = false).
      { intros j Hj.
        apply (@float_lt_new_best (nth i l zero) x (nth j l zero));
          [apply Hpos; lia | exact Hx' | apply Hpos; lia | exact Ex
          | apply Hmax; lia]. }
      exists (List.length l). rewrite Hlast. repeat split.
      * lia.
      * f_equal. lia.
      * intros j Hj. destruct (Nat.eq_dec j (List.length l)) as [->|Hj'].
        -- rewrite Hlast. now apply float_lt_irrefl.
        -- rewrite Hnth by lia. apply Hnew. lia.
      * intros j Hj. rewrite Hnth by lia. apply Hnew. lia.
    + exists i. rewrite Hnth by lia. repeat split.
      * lia.
      * intros j Hj. destruct (Nat.eq_dec j (List.length l)) as [->|Hj'].
        -- now rewrite Hlast.
        -- rewrite Hnth by lia. apply Hmax. lia.
      * intros j Hj. rewrite Hnth by lia. now apply Hfirst.
Qed.

(** ** The roll count with the highest average *)

Section MaxScoring.

Variable DS : Type.

Implicit Types (dice : Dice DS) (w : World DS) (fuel : nat).

Lemma roll_dice_args_pair dice roll fuel w :
  roll_dice_args fuel (roll, dice) w = roll_dice fuel (VInt roll) dice w.
Proof. reflexivity. Qed.

Lemma sum_list_upper (l : list Z) (bound : Z) :
  Forall (fun v => v <= bound) l ->
  sum_list l <= Z.of_nat (List.length l) * bound.
Proof.
  induction 1 as [|v l Hv _ IH]; cbn [sum_list fold_right List.length].
  - lia.
  - unfold sum_list in IH. lia.
Qed.

Lemma dice_calls_bounded dice bound n s :
  bounded_dice dice bound ->
  Forall (fun v => v <= bound) (fst (dice_calls dice n s)).
Proof.
  intros Hb. revert s; induction n as [|n IH]; intros s; cbn [dice_calls].
  - constructor.
  - pose proof (Hb s) as Hv. destruct (dice s) as [v s1]. specialize (IH s1).
    destruct (dice_calls dice n s1) as [vs s2]. cbn in *. now constructor.
Qed.

(** A roll of 1 to 10 positive dice returns at least 1, and the same
    whatever the fuel from 11 on; it returns at most 10 times the highest
    outcome of the dice. *)
Lemma roll_dice_args_returns dice roll fuel w :
  positive_dice dice -> 1 <= roll <= 10 -> (11 <= fuel)%nat ->
  exists r w',
    roll_dice_args fuel (roll, dice) w = Ret r w' /\
    roll_dice_args 11 (roll, dice) w = Ret r w' /\
    1 <= r /\
    forall bound, bounded_dice dice bound -> r <= 10 * bound.
Proof.
  intros Hd Hroll Hfuel. rewrite !roll_dice_args_pair.
  rewrite !roll_dice_spec by lia.
  pose proof (dice_calls_length dice (Z.to_nat roll) (rng w)) as Hlen.
  pose proof (@dice_calls_positive _ dice (Z.to_nat roll) (rng w) Hd) as Hpos.
  pose proof (fun bound => @dice_calls_bounded dice bound (Z.to_nat roll)
                             (rng w)) as Hbnd.
  destruct (dice_calls dice (Z.to_nat roll) (rng w)) as [outs s].
  cbn [fst] in *. eexists _, _. split; [reflexivity|]. split; [reflexivity|].
  assert (Hsum : 0 < sum_list outs).
  { apply sum_list_positive; [exact Hpos|]. intros ->. cbn in Hlen. lia. }
  split.
  - destruct (existsb (Z.eqb 1) outs); lia.
  - intros bound Hb. pose proof (sum_list_upper (Hbnd bound Hb)) as Hup.
    rewrite Hlen in Hup.
    assert (1 <= bound).
    { destruct outs as [|v outs']; [cbn in Hlen; lia|].
      specialize (Hbnd bound Hb). inversion Hbnd; subst.
      inversion Hpos; subst. lia. }
    destruct (existsb (Z.eqb 1) outs); nia.
Qed.

Lemma sum_list_lower (rs : list Z) :
  Forall (fun r => 1 <= r) rs -> Z.of_nat (List.length rs) <= sum_list rs.
Proof.
  induction 1 as [|r rs Hr _ IH]; cbn [sum_list fold_right List.length].
  - lia.
  - unfold sum_list in IH. lia.
Qed.

Lemma max_scoring_loop_step dice fuel roll max_num_roll best_value w :
  roll <= 10 ->
  max_scoring_loop (S fuel) dice roll max_num_roll best_value w
  = bind (make_averaged (@roll_dice_args DS) 1000 fuel (roll, dice))
         (fun ave_value =>
            bind (print roll ave_value)
                 (fun _ =>
                    max_scoring_loop fuel dice (roll + 1)
                      (fst (keep_higher (max_num_roll, best_value)
                                        (roll, ave_value)))
                      (snd (keep_higher (max_num_roll, best_value)
                                        (roll, ave_value))))) w.
Proof.
  intros H. cbn [max_scoring_loop].
  replace (roll <=? 10) with true by (symmetry; apply Z.leb_le; lia).
  unfold bind.
  destruct (make_averaged _ 1000 fuel (roll, dice) w) as [ave w1|e w1|];
    try reflexivity.
  destruct (print roll ave w1) as [[] w2|e w2|]; try reflexivity.
  unfold keep_higher. cbn [snd]. now destruct (float_lt best_value ave).
Qed.

Lemma averages_length dice roll n w avs w' :
  averages dice roll n w avs w' -> List.length avs = n.
Proof. induction 1; cbn; congruence. Qed.

(** The loop of [max_scoring_num_rolls] samples the remaining roll counts
    in increasing order and folds [keep_higher] over their averages; it
    stops with [OverflowError] at the first average that is not finite. *)
Lemma max_scoring_loop_spec dice :
  positive_dice dice ->
  forall n roll fuel best w,
    1 <= roll -> roll + Z.of_nat n = 11 -> (n + 1012 <= fuel)%nat ->
    (exists avs w',
        averages dice roll n w avs w' /\
        Forall (fun a => positive_finite a = true) avs /\
        max_scoring_loop fuel dice roll (fst best) (snd best) w
        = Ret (fst (fold_left keep_higher (numbered roll avs) best)) w') \/
    (exists roll' rs w0 w1 w',
        1 <= roll' <= 10 /\
        samples (@roll_dice_args DS 11) (roll', dice) 1000 w0 rs w1 /\
        is_infinity (mean rs) = true /\
        max_scoring_loop fuel dice roll (fst best) (snd best) w
        = Raise OverflowError w').
Proof.
  intros Hd. induction n as [|n IH]; intros roll fuel best w Hroll Hn Hfuel;
    (destruct fuel as [|fuel]; [lia|]).
  - left. exists [], w. split; [constructor|]. split; [constructor|].
    cbn [max_scoring_loop].
    replace (roll <=? 10) with false by (symmetry; apply Z.leb_gt; lia).
    reflexivity.
  - rewrite max_scoring_loop_step by lia.
    assert (Hfn : forall fuel' w0, (11 <= fuel')%nat ->
              exists r w',
                roll_dice_args fuel' (roll, dice) w0 = Ret r w' /\
                roll_dice_args 11 (roll, dice) w0 = Ret r w').
    { intros fuel' w0 Hf.
      destruct (@roll_dice_args_returns dice roll fuel' w0 Hd ltac:(lia) Hf)
        as (r & w' & E1 & E2 & _).
      now exists r, w'. }
    destruct (@make_averaged_1000 _ _ (@roll_dice_args DS) (roll, dice)
                11%nat fuel w Hfn ltac:(lia))
      as (rs & w1 & Hs & E & Hmean).
    assert (Hrs : Forall (fun r => 1 <= r) rs).
    { refine (@samples_Forall _ _ (@roll_dice_args DS 11) (roll, dice)
                (fun r => 1 <= r) _ _ _ _ _ Hs).
      intros w0 r w' Er.
      destruct (@roll_dice_args_returns dice roll 11%nat w0 Hd ltac:(lia)
                  ltac:(lia)) as (r' & w2 & E1 & _ & Hr & _).
      rewrite E1 in Er. now injection Er as <- _. }
    pose proof (sum_list_lower Hrs) as Hsum.
    rewrite (samples_length Hs) in Hsum.
    destruct (@float_div_positive (sum_list rs) 1000 ltac:(lia)) as [Hp | Hinf];
      rewrite Hmean in *.
    + assert (Et : truediv (sum_list rs) 1000 w1 = Ret (mean rs) w1).
      { unfold truediv. cbn [Z.eqb]. rewrite Hmean.
        now destruct (mean rs) as [| | |[] m e]. }
      erewrite bind_Ret by (rewrite E; exact Et).
      destruct (print roll (mean rs) w1) as [[] w2|e w2|] eqn:Ep;
        try discriminate.
      erewrite bind_Ret by exact Ep.
      destruct (IH (roll + 1) fuel
                   (keep_higher best (roll, mean rs)) w2
                   ltac:(lia) ltac:(lia) ltac:(lia))
        as [(avs & w' & Ha & Hall & El)
           | (roll' & rs' & w0 & w3 & w' & Hr' & Hs' & Hi & El)].
      * left. exists (mean rs :: avs), w'.
        split; [now apply averages_cons with (w1 := w1) (w2 := w2)|].
        split; [now constructor|].
        destruct best as [max_num_roll best_value]. exact El.
      * right. exists roll', rs', w0, w3, w'.
        destruct best as [max_num_roll best_value]. auto.
    + right. exists roll, rs, w, w1, w1.
      split; [lia|]. split; [exact Hs|]. split; [now rewrite Hinf|].
      apply bind_Raise. rewrite E. unfold truediv. cbn [Z.eqb].
      now rewrite Hmean, Hinf.
Qed.

(** 1000 samples of a roll of dice bounded by [2 ^ 1000] have a finite
    mean. *)
Lemma bounded_samples_finite_mean dice roll w rs w' :
  positive_dice dice -> bounded_dice dice (2 ^ 1000) -> 1 <= roll <= 10 ->
  samples (@roll_dice_args DS 11) (roll, dice) 1000 w rs w' ->
  positive_finite (mean rs) = true.
Proof.
  intros Hd Hb Hroll Hs.
  assert (Hrs : Forall (fun r => 1 <= r <= 10 * 2 ^ 1000) rs).
  { refine (@samples_Forall _ _ (@roll_dice_args DS 11) (roll, dice)
              (fun r => 1 <= r <= 10 * 2 ^ 1000) _ _ _ _ _ Hs).
    intros w0 r w1 Er.
    destruct (@roll_dice_args_returns dice roll 11%nat w0 Hd ltac:(lia)
                ltac:(lia)) as (r' & w2 & E1 & _ & Hr & Hup).
    rewrite E1 in Er. injection Er as <- _. split; [exact Hr | now apply Hup]. }
  assert (Hlow : Forall (fun r => 1 <= r) rs)
    by (eapply Forall_impl; [|exact Hrs]; cbv beta; intros; lia).
  assert (Hup : Forall (fun r => r <= 10 * 2 ^ 1000) rs)
    by (eapply Forall_impl; [|exact Hrs]; cbv beta; intros; lia).
  pose proof (sum_list_lower Hlow) as H1.
  pose proof (sum_list_upper Hup) as H2.
  pose proof (samples_length Hs) as Hlen.
  unfold mean. rewrite Hlen in *.
  change (Z.of_nat 1000) with 1000 in *.
  apply float_div_1000_finite. split; [lia|].
  replace 1014 with (14 + 1000) by lia. rewrite Z.pow_add_r by lia.
  assert (0 < 2 ^ 1000) by (apply Z.pow_pos_nonneg; lia).
  change (2 ^ 14) with 16384. lia.
Qed.

(** C6.  For a dice with positive outcomes, [max_scoring_num_rolls]
    computes for the roll counts 1 to 10, in this order, the average of
    1000 samples of [roll_dice], and returns the first roll count whose
    average no other average exceeds: every earlier roll count has a
    strictly lower average.  The only other behaviour is an
    [OverflowError] of the division, which needs a dice outcome above
    [2 ^ 1000]. *)
Theorem max_scoring_num_rolls_first_highest_average dice fuel w :
  positive_dice dice -> (1022 <= fuel)%nat ->
  (exists avs r w',
      averages dice 1 10 w avs w' /\
      max_scoring_num_rolls fuel dice w = Ret r w' /\
      1 <= r <= 10 /\
      let ave := fun j => nth (Z.to_nat (j - 1)) avs (float_of_int 0) in
      (forall j, 1 <= j <= 10 -> float_lt (ave r) (ave j) = false) /\
      (forall j, 1 <= j < r -> float_lt (ave j) (ave r) = true)) \/
  (~ bounded_dice dice (2 ^ 1000) /\
   exists w', max_scoring_num_rolls fuel dice w = Raise OverflowError w').
Proof.
  intros Hd Hfuel. unfold max_scoring_num_rolls.
  destruct (@max_scoring_loop_spec dice Hd 10%nat 1 fuel
              (0, float_of_int 0) w ltac:(lia) ltac:(lia) ltac:(lia))
    as [(avs & w' & Ha & Hall & El)
       | (roll' & rs & w0 & w1 & w' & Hr & Hs & Hi & El)];
    cbn [fst snd] in El.
  2:{ right. split; [|now exists w'].
      intros Hb.
      pose proof (@bounded_samples_finite_mean dice roll' w0 rs w1 Hd Hb Hr Hs)
        as Hfin.
      destruct (mean rs) as [| | |[] m e]; discriminate. }
  left. pose proof (averages_length Ha) as Hlen.
  destruct (@keep_higher_first_maximum avs Hall
              ltac:(intros ->; discriminate))
    as (i & Hi & Ef & Hmax & Hfirst).
  rewrite Ef in El. cbn [fst] in El.
  exists avs, (Z.of_nat i + 1), w'.
  split; [exact Ha|]. split; [exact El|]. split; [lia|].
  cbv zeta. replace (Z.to_nat (Z.of_nat i + 1 - 1)) with i by lia.
  split.
  - intros j Hj. apply Hmax. lia.
  - intros j Hj.
    replace i with (Z.to_nat (Z.of_nat i)) at 2 by lia. apply Hfirst. lia.
Qed.

End MaxScoring.

(** The doctest of [max_scoring_num_rolls]: with a dice that always shows
    3 the averages printed are 3.0, 6.0, ..., 30.0 and the result is 10. *)
Example max_scoring_num_rolls_always_3 :
  let run :=
    max_scoring_num_rolls 1022 (make_test_dice [3])
      {| rng := 0%nat; rolled := []; printed := [] |} in
  returned run = Some 10 /\
  output run
  = map (fun roll => (roll, float_of_int (3 * roll)))
        [1; 2; 3; 4; 5; 6; 7; 8; 9; 10].
Proof. split; vm_compute; reflexivity. Qed.

Lemma make_test_dice_bounded (outcomes : list Z) (bound : Z) :
  outcomes <> [] -> forallb (fun v => v <=? bound) outcomes = true ->
  bounded_dice (make_test_dice outcomes) bound.
Proof.
  intros Hne Hall s. cbn [make_test_dice fst].
  assert (Hin : In (nth (s mod List.length outcomes) outcomes 0) outcomes).
  { apply nth_In. apply Nat.mod_upper_bound.
    destruct outcomes; [congruence | discriminate]. }
  rewrite forallb_forall in Hall. now apply Z.leb_le, Hall.
Qed.

Lemma max_scoring_num_rolls_first_highest_average_witness :
  let dice := make_test_dice [2; 1; 6; 4; 3; 5] in
  let w : World nat := {| rng := 0%nat; rolled := []; printed := [] |} in
  exists avs r w',
    averages dice 1 10 w avs w' /\
    max_scoring_num_rolls 1022 dice w = Ret r w' /\
    1 <= r <= 10 /\
    let ave := fun j => nth (Z.to_nat (j - 1)) avs (float_of_int 0) in
    (forall j, 1 <= j <= 10 -> float_lt (ave r) (ave j) = false) /\
    (forall j, 1 <= j < r -> float_lt (ave j) (ave r) = true).
Proof.
  intros dice w.
  destruct (@max_scoring_num_rolls_first_highest_average _ dice 1022 w)
    as [H | [Hnb _]].
  - now apply make_test_dice_positive.
  - lia.
  - exact H.
  - exfalso. apply Hnb. apply make_test_dice_bounded; [discriminate|].
    cbn [forallb andb]. rewrite !andb_true_r.
    repeat (apply andb_true_intro; split);
      apply Z.leb_le; apply Z.le_trans with (2 ^ 3); [now cbn|];
      apply Z.pow_le_mono_r; lia.
Defined.

(** * Further properties of the simulator *)

(** ** Free bacon, the choice of dice, the other player, the swap *)

(** X1.  [free_bacon] is at least 1 on every integer and at most 10 on
    scores up to 99; on a two-digit score it is one more than the larger
    digit, so exchanging the digits does not change it; from 100 on the
    quotient by 10 decides alone. *)
Theorem free_bacon_digits :
  (forall score, 1 <= free_bacon score) /\
  (forall score, 0 <= score < 100 -> free_bacon score <= 10) /\
  (forall tens ones, 0 <= tens < 10 -> 0 <= ones < 10 ->
     free_bacon (10 * tens + ones) = Z.max tens ones + 1 /\
     free_bacon (10 * tens + ones) = free_bacon (10 * ones + tens)) /\
  (forall score, 100 <= score -> free_bacon score = score / 10 + 1).
Proof.
  assert (Hdigits : forall tens ones, 0 <= tens < 10 -> 0 <= ones < 10 ->
            free_bacon (10 * tens + ones) = Z.max tens ones + 1).
  { intros tens ones Ht Ho. unfold free_bacon.
    replace ((10 * tens + ones) / 10) with tens
      by (apply Z.div_unique with ones; lia).
    replace ((10 * tens + ones) mod 10) with ones
      by (apply Z.mod_unique with tens; lia).
    reflexivity. }
  split; [|split; [|split]].
  - intros score. unfold free_bacon.
    pose proof (Z.mod_pos_bound score 10 ltac:(lia)). lia.
  - intros score H. now apply free_bacon_bounds.
  - intros tens ones Ht Ho. split; [now apply Hdigits|].
    rewrite !Hdigits by assumption. lia.
  - intros score H. unfold free_bacon.
    pose proof (Z.mod_pos_bound score 10 ltac:(lia)).
    assert (10 <= score / 10) by (apply Z.div_le_lower_bound; lia). lia.
Qed.

Lemma free_bacon_digits_witness :
  free_bacon 100 = 11 /\
  free_bacon (10 * 3 + 7) = free_bacon (10 * 7 + 3) /\
  free_bacon 42 <= 10.
Proof.
  destruct free_bacon_digits as (_ & Hle & Hdig & Hbig).
  refine (conj _ (conj _ _)).
  - apply (Hbig 100). lia.
  - apply (Hdig 3 7); lia.
  - apply (Hle 42). lia.
Defined.

Section MoreGameFacts.

Variable DS : Type.
Variable four_sided six_sided : Dice DS.

Implicit Types (dice : Dice DS) (w : World DS) (fuel : nat).

(** X2.  The dice of a turn depends on the two scores through their sum
    modulo 7 only: [select_dice] treats both players alike and does not
    change when a score moves by a multiple of 7. *)
Theorem select_dice_by_total (score opponent_score score' opponent_score' : Z) :
  (score + opponent_score) mod 7 = (score' + opponent_score') mod 7 ->
  select_dice four_sided six_sided score opponent_score
  = select_dice four_sided six_sided score' opponent_score' /\
  select_dice four_sided six_sided score opponent_score
  = select_dice four_sided six_sided opponent_score score.
Proof.
  intros H. unfold select_dice.
  rewrite (Z.add_comm opponent_score score), (Z.add_comm opponent_score' score').
  rewrite H. split; reflexivity.
Qed.

(** X3.  The conditional exchange of [play] is the same rule for both
    players and undoes itself: on the exchanged pair it gives the exchanged
    result, and applied to its own result it gives the pair back.  It
    leaves the pair alone unless one score is exactly twice the other. *)
Theorem swap_rule_symmetric_involutive (score opponent_score : Z) :
  swap_rule opponent_score score = rotate (swap_rule score opponent_score) /\
  swap_rule (fst (swap_rule score opponent_score))
            (snd (swap_rule score opponent_score))
  = (score, opponent_score) /\
  (swap_rule score opponent_score = (score, opponent_score) \/
   (score = 2 * opponent_score \/ opponent_score = 2 * score)).
Proof.
  unfold swap_rule, rotate.
  rewrite (orb_comm (opponent_score =? 2 * score)).
  destruct ((score =? 2 * opponent_score) || (opponent_score =? 2 * score))
    eqn:E; cbn [fst snd].
  - rewrite (orb_comm (opponent_score =? 2 * score)), E.
    split; [reflexivity|]. split; [reflexivity|]. right.
    apply orb_true_iff in E as [E|E]; apply Z.eqb_eq in E; auto.
  - rewrite E. split; [reflexivity|]. split; [reflexivity|]. now left.
Qed.

End MoreGameFacts.

(** ** The last turn of a game *)

Section GameResults.

Variable DS : Type.
Variable four_sided six_sided : Dice DS.

Implicit Types (dice : Dice DS) (w : World DS) (fuel : nat).

(** When the loop of [play] returns, it is on the turn that took the score
    of the player who moved to the goal, the other score still being below
    it: whatever the strategies and the dice. *)
Lemma play_loop_one_reaches strategy0 strategy1 goal :
  forall fuel who score opponent_score w who' a b w',
    (score < goal /\ opponent_score < goal) \/
    (goal <= score /\ opponent_score < goal) \/
    (goal <= opponent_score /\ score < goal) ->
    play_loop four_sided six_sided fuel strategy0 strategy1 goal
              who score opponent_score w = Ret (who', a, b) w' ->
    (goal <= a /\ b < goal) \/ (goal <= b /\ a < goal).
Proof.
  induction fuel as [|fuel IH]; intros who score opp w who' a b w' Hinv E;
    [discriminate|].
  destruct (Z.ltb_spec (Z.max score opp) goal) as [Hlt|Hge].
  - rewrite play_loop_step in E by exact Hlt. unfold bind in E.
    destruct (take_turn fuel _ opp _ w) as [delta w1|e w1|]; try discriminate.
    apply IH in E; [exact E|].
    destruct (swap_rule_cases (score + delta) opp) as [-> | ->];
      cbn [rotate fst snd]; lia.
  - rewrite play_loop_exit in E by lia. injection E as <- <- <- <-. lia.
Qed.

Lemma play_one_reaches strategy0 strategy1 goal fuel w a b w' :
  0 < goal ->
  play four_sided six_sided fuel strategy0 strategy1 goal w = Ret (a, b) w' ->
  (goal <= a /\ b < goal) \/ (goal <= b /\ a < goal).
Proof.
  intros Hgoal E. rewrite play_unfold in E. unfold bind in E.
  destruct (play_loop four_sided six_sided fuel strategy0 strategy1 goal
                      0 0 0 w) as [[[who' x] y] w1|e w1|] eqn:El;
    try discriminate.
  apply play_loop_one_reaches in El; [|lia].
  unfold ret, by_player in E.
  destruct (who' =? 0); injection E as <- <- <-; lia.
Qed.

(** X4.  A game to a goal of 0 or less returns (0, 0) at once, without a
    turn.  A game to a positive goal that returns has exactly one final
    score at or above the goal, the other one below it; in particular the
    two final scores are never equal.  This holds for every pair of
    strategies and every dice. *)
Theorem play_one_final_score_reaches_goal strategy0 strategy1 goal :
  (goal <= 0 ->
   forall fuel w,
     play four_sided six_sided (S fuel) strategy0 strategy1 goal w
     = Ret (0, 0) w) /\
  (0 < goal ->
   forall fuel w final_score0 final_score1 w',
     play four_sided six_sided fuel strategy0 strategy1 goal w
     = Ret (final_score0, final_score1) w' ->
     ((goal <= final_score0 /\ final_score1 < goal) \/
      (goal <= final_score1 /\ final_score0 < goal)) /\
     final_score0 <> final_score1).
Proof.
  split.
  - intros Hgoal fuel w. rewrite play_unfold.
    erewrite bind_Ret by (apply play_loop_exit; lia). reflexivity.
  - intros Hgoal fuel w a b w' E.
    pose proof (play_one_reaches _ _ _ _ Hgoal E). lia.
Qed.

(** X5.  [winner] returns 0 exactly when player 0's final score has
    reached 100 and 1 exactly when player 1's has: the branch for equal
    scores is never the one that decides. *)
Theorem winner_is_the_player_at_100 strategy0 strategy1 fuel w r w' :
  winner four_sided six_sided fuel strategy0 strategy1 w = Ret r w' ->
  exists score0 score1,
    play four_sided six_sided fuel strategy0 strategy1 GOAL_SCORE w
    = Ret (score0, score1) w' /\
    (r = 0 <-> 100 <= score0) /\
    (r = 1 <-> 100 <= score1) /\
    score0 <> score1.
Proof.
  intros E. unfold winner, bind in E.
  destruct (play four_sided six_sided fuel strategy0 strategy1 GOAL_SCORE w)
    as [[a b] w1|e w1|] eqn:Ep; try discriminate.
  pose proof (@play_one_reaches strategy0 strategy1 GOAL_SCORE fuel w a b w1
                ltac:(unfold GOAL_SCORE; lia) Ep) as H.
  unfold GOAL_SCORE in H.
  exists a, b. destruct (Z.gtb_spec a b); unfold ret in E;
    injection E as <- <-; (split; [reflexivity|]); lia.
Qed.

End GameResults.

(** ** What a turn can score, and how long a game can be *)

Lemma sum_list_between (l : list Z) (lo hi : Z) :
  Forall (fun v => lo <= v <= hi) l ->
  Z.of_nat (List.length l) * lo <= sum_list l
  <= Z.of_nat (List.length l) * hi.
Proof.
  induction 1 as [|v l Hv _ IH]; cbn [sum_list fold_right List.length].
  - lia.
  - unfold sum_list in IH. lia.
Qed.

Lemma no_one_rolled (l : list Z) :
  existsb (Z.eqb 1) l = false -> Forall (fun v => v <> 1) l.
Proof.
  induction l as [|v l IH]; cbn [existsb]; intros H; constructor.
  - apply orb_false_iff in H as [H _]. apply Z.eqb_neq in H. congruence.
  - apply IH. now apply orb_false_iff in H as [_ H].
Qed.

Section TurnsAndGames.

Variable DS : Type.
Variable four_sided six_sided : Dice DS.

Implicit Types (dice : Dice DS) (w : World DS) (fuel : nat).

Lemma after_rolls_effect w (outs : list Z) (s : DS) :
  List.length (rolled (after_rolls w outs s))
  = (List.length outs + List.length (rolled w))%nat /\
  printed (after_rolls w outs s) = printed w.
Proof.
  unfold after_rolls. cbn [rolled printed].
  now rewrite length_app, length_rev.
Qed.

(** The outcomes of a roll of positive dice bounded by [bound], and what
    [roll_dice] makes of them. *)
Lemma rolled_outcomes_range dice bound n s :
  positive_dice dice -> bounded_dice dice bound -> (1 <= n)%nat ->
  let outs := fst (dice_calls dice n s) in
  let r := if existsb (Z.eqb 1) outs then 1 else sum_list outs in
  1 <= bound /\
  (r = 1 \/ 2 * Z.of_nat n <= r <= Z.of_nat n * bound).
Proof.
  intros Hp Hb Hn outs r.
  pose proof (dice_calls_length dice n s) as Hlen.
  pose proof (@dice_calls_positive _ dice n s Hp) as Hpos.
  pose proof (@dice_calls_bounded _ dice bound n s Hb) as Hbnd.
  fold outs in Hlen, Hpos, Hbnd.
  assert (H1 : 1 <= bound).
  { destruct outs as [|v outs']; [cbn in Hlen; lia|].
    inversion Hpos; inversion Hbnd; subst. lia. }
  split; [exact H1|]. subst r.
  destruct (existsb (Z.eqb 1) outs) eqn:E; [now left|right].
  apply no_one_rolled in E.
  assert (Hall : Forall (fun v => 2 <= v <= bound) outs).
  { rewrite Forall_forall in *. intros v Hv.
    specialize (Hpos v Hv). specialize (Hbnd v Hv). specialize (E v Hv).
    cbv beta in *. lia. }
  pose proof (sum_list_between Hall) as Hs. rewrite Hlen in Hs. lia.
Qed.

(** X6.  With a dice whose outcomes lie between 1 and [bound], a roll of
    [num_rolls >= 1] dice returns either 1 (a pig-out) or a sum between
    [2 * num_rolls] and [num_rolls * bound]: no total from 2 to
    [2 * num_rolls - 1] can be scored. *)
Theorem roll_dice_range dice bound num_rolls fuel w :
  positive_dice dice -> bounded_dice dice bound ->
  1 <= num_rolls -> (Z.to_nat num_rolls < fuel)%nat ->
  exists r w',
    roll_dice fuel (VInt num_rolls) dice w = Ret r w' /\
    (r = 1 \/ 2 * num_rolls <= r <= num_rolls * bound).
Proof.
  intros Hp Hb Hn Hfuel. rewrite roll_dice_spec by assumption.
  pose proof (@rolled_outcomes_range dice bound (Z.to_nat num_rolls) (rng w)
                Hp Hb ltac:(lia)) as H. cbv zeta in H.
  destruct (dice_calls dice (Z.to_nat num_rolls) (rng w)) as [outs s].
  cbn [fst] in H. eexists _, _. split; [reflexivity|].
  rewrite Z2Nat.id in H by lia. apply H.
Qed.

(** A turn within its preconditions: its score, the dice calls it makes,
    and nothing printed. *)
Lemma take_turn_effect dice n opponent_score fuel w :
  positive_dice dice -> 0 <= n <= 10 -> 0 <= opponent_score < 100 ->
  (10 < fuel)%nat ->
  exists delta w',
    take_turn fuel (VInt n) opponent_score dice w = Ret delta w' /\
    1 <= delta /\
    (forall bound, bounded_dice dice bound ->
       delta <= Z.max 10 (10 * bound)) /\
    List.length (rolled w') = (Z.to_nat n + List.length (rolled w))%nat /\
    printed w' = printed w.
Proof.
  intros Hp Hn Hopp Hfuel. unfold take_turn.
  replace (n >=? 0) with true by (symmetry; apply Z.geb_le; lia).
  replace (n <=? 10) with true by (symmetry; apply Z.leb_le; lia).
  replace (opponent_score <? 100) with true by (symmetry; apply Z.ltb_lt; lia).
  rewrite !assert_true.
  destruct (Z.eqb_spec n 0) as [->|Hn0].
  - pose proof (free_bacon_bounds Hopp).
    eexists _, _. split; [reflexivity|].
    split; [lia|]. split; [intros; lia|]. now split.
  - rewrite roll_dice_spec by lia.
    pose proof (dice_calls_length dice (Z.to_nat n) (rng w)) as Hlen.
    pose proof (fun bound Hb =>
                  @rolled_outcomes_range dice bound (Z.to_nat n) (rng w)
                    Hp Hb ltac:(lia)) as Hr.
    pose proof (@dice_calls_positive _ dice (Z.to_nat n) (rng w) Hp) as Hpos.
    destruct (dice_calls dice (Z.to_nat n) (rng w)) as [outs s].
    cbn [fst] in *.
    destruct (after_rolls_effect w outs s) as [Hl Hpr].
    eexists _, _. split; [reflexivity|].
    split; [|split; [|split; [now rewrite Hl, Hlen | exact Hpr]]].
    + destruct (existsb (Z.eqb 1) outs); [lia|].
      assert (0 < sum_list outs); [|lia].
      apply sum_list_positive; [exact Hpos|]. intros ->. cbn in Hlen. lia.
    + intros bound Hb. specialize (Hr bound Hb). cbv zeta in Hr.
      rewrite Z2Nat.id in Hr by lia. nia.
Qed.

(** The loop of [play], for a goal of at most 100 and valid strategies: it
    returns after at most [k] more turns, where [k] bounds what the two
    scores still lack; the last turn took the mover from below the goal to
    the goal, and only dice calls changed the world. *)
Lemma play_loop_run strategy0 strategy1 goal :
  valid_strategy strategy0 -> valid_strategy strategy1 ->
  positive_dice four_sided -> positive_dice six_sided ->
  goal <= 100 ->
  forall k fuel who score opponent_score w,
    0 <= score < goal -> 0 <= opponent_score < goal ->
    2 * goal - 1 - (score + opponent_score) <= Z.of_nat k ->
    (k + 12 <= fuel)%nat ->
    exists who' a b w' s o delta,
      play_loop four_sided six_sided fuel strategy0 strategy1 goal
                who score opponent_score w = Ret (who', a, b) w' /\
      0 <= s < goal /\ 0 <= o < goal /\ goal <= s + delta /\
      (forall bound,
         bounded_dice four_sided bound -> bounded_dice six_sided bound ->
         delta <= Z.max 10 (10 * bound)) /\
      ((a = s + delta /\ b = o) \/ (a = o /\ b = s + delta)) /\
      (List.length (rolled w') <= 10 * k + List.length (rolled w))%nat /\
      printed w' = printed w.
Proof.
  intros Hs0 Hs1 H4 H6 Hgoal.
  induction k as [|k IH]; intros fuel who score opp w Hs Ho Hk Hfuel;
    [lia|].
  destruct fuel as [|fuel]; [lia|].
  rewrite play_loop_step by lia.
  assert (Hn : exists n, (if who =? 0 then strategy0 else strategy1) score opp
                         = VInt n /\ 0 <= n <= 10)
    by (destruct (who =? 0); [apply Hs0 | apply Hs1]).
  destruct Hn as (n & -> & Hn).
  destruct (@take_turn_effect (select_dice four_sided six_sided score opp)
              n opp fuel w (select_dice_positive score opp H4 H6) Hn
              ltac:(lia) ltac:(lia))
    as (delta & w1 & E & Hd & Hup & Hlen & Hpr).
  erewrite bind_Ret by exact E.
  assert (Hup' : forall bound,
            bounded_dice four_sided bound -> bounded_dice six_sided bound ->
            delta <= Z.max 10 (10 * bound)).
  { intros bound B4 B6. apply Hup. unfold select_dice.
    now destruct (_ =? 0). }
  destruct (Z_lt_le_dec (score + delta) goal) as [Hlt|Hge].
  - destruct (IH fuel (other who)
                 (fst (rotate (swap_rule (score + delta) opp)))
                 (snd (rotate (swap_rule (score + delta) opp))) w1)
      as (who' & a & b & w' & s & o & d & El & R1 & R2 & R3 & R4 & R5 & R6 & R7);
      try (destruct (swap_rule_cases (score + delta) opp) as [-> | ->];
           cbn [rotate fst snd]; lia); try lia.
    exists who', a, b, w', s, o, d. rewrite El.
    split; [reflexivity|]. repeat (split; [assumption|]).
    split; [lia | congruence].
  - destruct fuel as [|fuel]; [lia|]. rewrite play_loop_exit
      by (destruct (swap_rule_cases (score + delta) opp) as [-> | ->];
          cbn [rotate fst snd]; lia).
    exists (other who), (fst (rotate (swap_rule (score + delta) opp))),
      (snd (rotate (swap_rule (score + delta) opp))), w1, score, opp, delta.
    split; [reflexivity|]. split; [lia|]. split; [lia|]. split; [lia|].
    split; [exact Hup'|]. split; [|split; [lia | exact Hpr]].
    destruct (swap_rule_cases (score + delta) opp) as [-> | ->];
      cbn [rotate fst snd]; auto.
Qed.

(** X7.  With valid strategies and dice whose outcomes lie between 1 and
    [bound], a game to a goal between 1 and 100 returns final scores of
    which the lower is between 0 and [goal - 1] and the higher between
    [goal] and [goal - 1 + max 10 (10 * bound)]: at most 159 with
    six-sided dice and the goal of 100. *)
Theorem play_final_scores_range strategy0 strategy1 goal bound fuel w :
  valid_strategy strategy0 -> valid_strategy strategy1 ->
  positive_dice four_sided -> positive_dice six_sided ->
  bounded_dice four_sided bound -> bounded_dice six_sided bound ->
  0 < goal <= 100 -> (Z.to_nat (2 * goal) + 12 <= fuel)%nat ->
  exists final_score0 final_score1 w',
    play four_sided six_sided fuel strategy0 strategy1 goal w
    = Ret (final_score0, final_score1) w' /\
    0 <= Z.min final_score0 final_score1 < goal /\
    goal <= Z.max final_score0 final_score1
    <= goal - 1 + Z.max 10 (10 * bound).
Proof.
  intros Hs0 Hs1 H4 H6 B4 B6 Hgoal Hfuel.
  destruct (@play_loop_run strategy0 strategy1 goal Hs0 Hs1 H4 H6
              ltac:(lia) (Z.to_nat (2 * goal)) fuel 0 0 0 w
              ltac:(lia) ltac:(lia) ltac:(lia) Hfuel)
    as (who' & a & b & w' & s & o & d & El & R1 & R2 & R3 & R4 & R5 & _ & _).
  specialize (R4 bound B4 B6).
  rewrite play_unfold. erewrite bind_Ret by exact El.
  unfold by_player, ret.
  destruct (who' =? 0); eexists _, _, _; (split; [reflexivity|]); lia.
Qed.


End TurnsAndGames.

(** ** The strategies *)

Section StrategyFacts.

Variable DS : Type.

Implicit Types (dice : Dice DS) (w : World DS) (fuel : nat).

Lemma take_turn_free_bacon dice opponent_score fuel w :
  opponent_score < 100 ->
  take_turn fuel (VInt 0) opponent_score dice w
  = Ret (free_bacon opponent_score) w.
Proof.
  intros H. unfold take_turn.
  replace (opponent_score <? 100) with true by (symmetry; apply Z.ltb_lt; lia).
  reflexivity.
Qed.


(** X10.  [swap_strategy], for a player with a non-negative score.  If free
    bacon would bring the player to exactly half the opponent's score, it
    rolls 0 and the turn ends, after the exchange of [play], with the
    player holding the opponent's former score, the double of its own.  If
    free bacon would bring the player to exactly twice the opponent's
    score, it rolls [num_rolls] instead.  In every other position it
    chooses as [bacon_strategy] does. *)
Theorem swap_strategy_seeks_good_swaps
    margin num_rolls score opponent_score dice fuel w :
  0 <= score -> opponent_score < 100 ->
  let bacon_point := free_bacon opponent_score in
  ((bacon_point + score) * 2 = opponent_score ->
   swap_strategy margin num_rolls score opponent_score = VInt 0 /\
   take_turn fuel (swap_strategy margin num_rolls score opponent_score)
             opponent_score dice w = Ret bacon_point w /\
   swap_rule (score + bacon_point) opponent_score
   = (opponent_score, score + bacon_point) /\
   opponent_score = 2 * (score + bacon_point)) /\
  (bacon_point + score = opponent_score * 2 ->
   swap_strategy margin num_rolls score opponent_score = VInt num_rolls) /\
  ((bacon_point + score) * 2 <> opponent_score ->
   bacon_point + score <> opponent_score * 2 ->
   swap_strategy margin num_rolls score opponent_score
   = bacon_strategy margin num_rolls score opponent_score).
Proof.
  intros Hs Hopp bacon_point.
  assert (Hb : 1 <= bacon_point).
  { subst bacon_point. unfold free_bacon.
    pose proof (Z.mod_pos_bound opponent_score 10 ltac:(lia)). lia. }
  unfold swap_strategy. fold bacon_point. split; [|split].
  - intros H.
    replace ((bacon_point + score) * 2 =? opponent_score) with true
      by (symmetry; apply Z.eqb_eq; lia).
    split; [reflexivity|].
    split; [now apply take_turn_free_bacon|].
    unfold swap_rule.
    replace (opponent_score =? 2 * (score + bacon_point)) with true
      by (symmetry; apply Z.eqb_eq; lia).
    rewrite orb_true_r. split; [reflexivity | lia].
  - intros H.
    replace ((bacon_point + score) * 2 =? opponent_score) with false
      by (symmetry; apply Z.eqb_neq; lia).
    replace (bacon_point + score =? opponent_score * 2) with true
      by (symmetry; apply Z.eqb_eq; lia).
    reflexivity.
  - intros H1 H2.
    replace ((bacon_point + score) * 2 =? opponent_score) with false
      by (symmetry; apply Z.eqb_neq; lia).
    replace (bacon_point + score =? opponent_score * 2) with false
      by (symmetry; apply Z.eqb_neq; lia).
    reflexivity.
Qed.

End StrategyFacts.

(** X11.  [final_strategy] only ever chooses 0, 4, 5, 6, 8 or 10 dice, so
    it never trips an assertion of [take_turn].  Above 90 points it takes
    free bacon; level with the opponent (at 90 or below) it rolls 4; more
    than 40 points behind it rolls 10, unless free bacon brings it to
    exactly half the opponent's score. *)
Theorem final_strategy_choices (score opponent_score : Z) :
  In (final_strategy score opponent_score)
     [VInt 0; VInt 4; VInt 5; VInt 6; VInt 8; VInt 10] /\
  (90 < score -> final_strategy score opponent_score = VInt 0) /\
  (score <= 90 -> opponent_score = score ->
   final_strategy score opponent_score = VInt 4) /\
  (score <= 90 -> 40 < opponent_score - score ->
   final_strategy score opponent_score
   = if (score + free_bacon opponent_score) * 2 =? opponent_score
     then VInt 0 else VInt 10).
Proof.
  unfold final_strategy, swap_strategy. cbv zeta.
  split; [|split; [|split]].
  - repeat match goal with
           | |- context [if ?b then _ else _] => destruct b
           end; cbn; auto 10.
  - intros H.
    replace (score >? 90) with true by (symmetry; apply Z.gtb_lt; lia).
    reflexivity.
  - intros H ->.
    replace (score >? 90) with false
      by (symmetry; rewrite Z.gtb_ltb; apply Z.ltb_ge; lia).
    rewrite Z.sub_diag. reflexivity.
  - intros H Hbehind.
    replace (score >? 90) with false
      by (symmetry; rewrite Z.gtb_ltb; apply Z.ltb_ge; lia).
    replace (opponent_score - score >? 20) with true
      by (symmetry; apply Z.gtb_lt; lia).
    replace (opponent_score - score >? 40) with true
      by (symmetry; apply Z.gtb_lt; lia).
    destruct ((score + free_bacon opponent_score) * 2 =? opponent_score);
      [reflexivity|].
    destruct ((score + 1) * 2 =? opponent_score); [reflexivity|].
    destruct (score * 2 + 1 =? opponent_score); reflexivity.
Qed.

(** * Further properties of the experiments *)

Section AveragingFacts.

Variable DS : Type.

Implicit Types (w : World DS) (fuel : nat).


(** X13.  With [num_samples = 0], [make_averaged] raises
    [ZeroDivisionError] without calling [fn]; with a negative
    [num_samples] it returns [-0.0], again without calling [fn]. *)
Theorem make_averaged_without_samples {A} (fn : nat -> A -> M DS Z)
    (args : A) (num_samples : Z) fuel w :
  num_samples <= 0 ->
  make_averaged fn num_samples (S fuel) args w
  = if num_samples =? 0 then Raise ZeroDivisionError w
    else Ret (S754_zero true) w.
Proof.
  intros H. unfold make_averaged, bind. cbn [average_loop].
  replace (0 <? num_samples) with false by (symmetry; apply Z.ltb_ge; lia).
  unfold ret, truediv. destruct num_samples as [|p|p]; try lia; reflexivity.
Qed.

End AveragingFacts.

(** The doctests of [make_averaged]: the dice 3, 1, 5, 6 averages 3.75 over
    1000 calls, and 1000 rolls of two of these dice average 6.0. *)
Example make_averaged_doctests :
  let dice := make_test_dice [3; 1; 5; 6] in
  let w : World nat := {| rng := 0%nat; rolled := []; printed := [] |} in
  returned (make_averaged (fun _ (_ : unit) => call dice) 1000 1001 tt w)
  = Some (S754_finite false 8444249301319680 (-51)) /\
  returned (make_averaged (@roll_dice_args nat) 1000 1012 (2, dice) w)
  = Some (float_of_int 6).
Proof. split; vm_compute; reflexivity. Qed.


Lemma make_averaged_without_samples_witness :
  make_averaged (@roll_dice_args nat) (-3) 1 (2, make_test_dice [3])
                {| rng := 0%nat; rolled := []; printed := [] |}
  = Ret (S754_zero true) {| rng := 0%nat; rolled := []; printed := [] |}.
Proof.
  apply (@make_averaged_without_samples nat _ (@roll_dice_args nat)
           (2, make_test_dice [3]) (-3) 0%nat). lia.
Defined.

(** ** What [max_scoring_num_rolls] prints and costs *)

Section MaxScoringCost.

Variable DS : Type.

Implicit Types (dice : Dice DS) (w : World DS) (fuel : nat).

(** A roll of [roll] dice returns whatever the dice, from 11 units of fuel
    on; it makes [roll] dice calls and prints nothing. *)
Lemma roll_dice_args_effect dice roll fuel w :
  1 <= roll <= 10 -> (11 <= fuel)%nat ->
  exists r w',
    roll_dice_args fuel (roll, dice) w = Ret r w' /\
    roll_dice_args 11 (roll, dice) w = Ret r w' /\
    List.length (rolled w') = (Z.to_nat roll + List.length (rolled w))%nat /\
    printed w' = printed w /\
    (bounded_dice dice 0 -> r <= 0).
Proof.
  intros Hroll Hfuel. rewrite !roll_dice_args_pair.
  rewrite !roll_dice_spec by lia.
  pose proof (dice_calls_length dice (Z.to_nat roll) (rng w)) as Hlen.
  pose proof (@dice_calls_bounded _ dice 0 (Z.to_nat roll) (rng w)) as Hbnd.
  destruct (dice_calls dice (Z.to_nat roll) (rng w)) as [outs s].
  cbn [fst] in *. destruct (after_rolls_effect w outs s) as [Hl Hp].
  eexists _, _. split; [reflexivity|]. split; [reflexivity|].
  split; [now rewrite Hl, Hlen|]. split; [exact Hp|].
  intros Hb. specialize (Hbnd Hb).
  pose proof (sum_list_upper Hbnd) as Hsum.
  replace (existsb (Z.eqb 1) outs) with false; [lia|].
  symmetry. apply not_true_is_false. intros H.
  apply existsb_exists in H as (v & Hv & Hv1). apply Z.eqb_eq in Hv1.
  rewrite Forall_forall in Hbnd. specialize (Hbnd v Hv). cbv beta in Hbnd. lia.
Qed.

Lemma samples_roll_effect dice roll :
  1 <= roll <= 10 ->
  forall n w rs w',
    samples (@roll_dice_args DS 11) (roll, dice) n w rs w' ->
    List.length (rolled w')
    = (n * Z.to_nat roll + List.length (rolled w))%nat /\
    printed w' = printed w /\
    (bounded_dice dice 0 -> Forall (fun r => r <= 0) rs).
Proof.
  intros Hroll n w rs w' H.
  induction H as [w|n w r w1 rs w' E _ IH].
  - repeat split; auto.
  - destruct (@roll_dice_args_effect dice roll 11%nat w Hroll ltac:(lia))
      as (r' & w1' & E1 & _ & Hl & Hp & Hr).
    rewrite E1 in E. injection E as <- <-.
    destruct IH as (IH1 & IH2 & IH3).
    split; [lia|]. split; [congruence|].
    intros Hb. constructor; auto.
Qed.

Lemma averages_effect dice :
  forall roll n w avs w',
    1 <= roll -> roll + Z.of_nat n <= 11 ->
    averages dice roll n w avs w' ->
    rev (printed w') = rev (printed w) ++ numbered roll avs /\
    2 * Z.of_nat (List.length (rolled w'))
    = 1000 * Z.of_nat n * (2 * roll + Z.of_nat n - 1)
      + 2 * Z.of_nat (List.length (rolled w)).
Proof.
  intros roll n w avs w' Hroll Hn H.
  induction H as [roll w|roll n w rs w1 w2 avs w' Hs Hp _ IH].
  - cbn [numbered]. rewrite app_nil_r. split; [reflexivity | lia].
  - destruct (@samples_roll_effect dice roll ltac:(lia) _ _ _ _ Hs)
      as (Hl & Hpr & _).
    unfold print in Hp. injection Hp as <-.
    destruct IH as [IH1 IH2]; [lia | lia |]. cbn [printed rolled] in *.
    split.
    + rewrite IH1, Hpr. cbn [rev numbered]. now rewrite <- app_assoc.
    + rewrite IH2, Hl. lia.
Qed.

(** X14.  For a dice with outcomes between 1 and [2 ^ 1000],
    [max_scoring_num_rolls] returns after printing exactly ten lines, one
    per roll count from 1 to 10 in this order, each with the average it
    computed; and it calls the dice exactly 55000 times
    (1000 * (1 + 2 + ... + 10)). *)
Theorem max_scoring_num_rolls_output_and_cost dice fuel w :
  positive_dice dice -> bounded_dice dice (2 ^ 1000) -> (1022 <= fuel)%nat ->
  exists avs r w',
    max_scoring_num_rolls fuel dice w = Ret r w' /\
    averages dice 1 10 w avs w' /\
    rev (printed w') = rev (printed w) ++ numbered 1 avs /\
    map fst (numbered 1 avs) = [1; 2; 3; 4; 5; 6; 7; 8; 9; 10] /\
    Z.of_nat (List.length (rolled w'))
    = 55000 + Z.of_nat (List.length (rolled w)).
Proof.
  intros Hd Hb Hfuel. unfold max_scoring_num_rolls.
  destruct (@max_scoring_loop_spec _ dice Hd 10%nat 1 fuel
              (0, float_of_int 0) w ltac:(lia) ltac:(lia) ltac:(lia))
    as [(avs & w' & Ha & Hall & El)
       | (roll' & rs & w0 & w1 & w' & Hr & Hs & Hi & El)];
    cbn [fst snd] in El.
  2:{ exfalso.
      pose proof (@bounded_samples_finite_mean _ dice roll' w0 rs w1 Hd Hb
                    Hr Hs) as Hfin.
      destruct (mean rs) as [| | |[] m e]; discriminate. }
  destruct (@averages_effect dice 1 10%nat w avs w' ltac:(lia) ltac:(lia) Ha)
    as [Hout Hcost].
  pose proof (averages_length Ha) as Hlen.
  eexists avs, _, w'. split; [exact El|]. split; [exact Ha|].
  split; [exact Hout|]. split; [|lia].
  do 10 (destruct avs as [|? avs]; [discriminate|]).
  destruct avs; [reflexivity | discriminate].
Qed.

End MaxScoringCost.

Lemma max_scoring_num_rolls_output_and_cost_witness :
  let dice := make_test_dice [2; 1; 6; 4; 3; 5] in
  let w : World nat := {| rng := 0%nat; rolled := []; printed := [] |} in
  exists avs r w',
    max_scoring_num_rolls 1022 dice w = Ret r w' /\
    averages dice 1 10 w avs w' /\
    rev (printed w') = rev (printed w) ++ numbered 1 avs /\
    map fst (numbered 1 avs) = [1; 2; 3; 4; 5; 6; 7; 8; 9; 10] /\
    Z.of_nat (List.length (rolled w'))
    = 55000 + Z.of_nat (List.length (rolled w)).
Proof.
  intros dice w.
  apply (@max_scoring_num_rolls_output_and_cost nat dice 1022 w).
  - now apply make_test_dice_positive.
  - apply make_test_dice_bounded; [discriminate|].
    cbn [forallb andb]. rewrite !andb_true_r.
    repeat (apply andb_true_intro; split);
      apply Z.leb_le; apply Z.le_trans with (2 ^ 3); [now cbn|];
      apply Z.pow_le_mono_r; lia.
  - lia.
Defined.

(** ** A dice without positive outcomes *)

Lemma shr_fexp_nonneg (m e : Z) (l : location) :
  0 <= m -> 0 <= shr_m (fst (shr_fexp prec emax m e l)).
Proof.
  intros Hm. unfold shr_fexp, shr.
  destruct (fexp prec emax (Zdigits2 m + e) - e) as [|n|n]; cbn [fst];
    rewrite ?shr_record_of_loc_m; try lia.
  rewrite iter_shr_1 by (rewrite shr_record_of_loc_m; lia).
  rewrite shr_record_of_loc_m.
  apply Z.div_pos; [lia | apply Z.pow_pos_nonneg; lia].
Qed.

(** Rounding a non-negative mantissa gives a zero, a finite float or an
    infinity of the sign asked for. *)
Lemma binary_round_aux_signed (s : bool) (mx ex : Z) (lx : location) :
  0 <= mx ->
  binary_round_aux prec emax s mx ex lx = S754_zero s \/
  (exists m e, binary_round_aux prec emax s mx ex lx = S754_finite s m e) \/
  binary_round_aux prec emax s mx ex lx = S754_infinity s.
Proof.
  intros Hm. unfold binary_round_aux.
  pose proof (@shr_fexp_nonneg mx ex lx Hm) as H1.
  destruct (shr_fexp prec emax mx ex lx) as [mrs' e']. cbn [fst] in H1.
  pose proof (round_nearest_even_ge (shr_m mrs') (loc_of_shr_record mrs')) as Hr.
  pose proof (@shr_fexp_nonneg
                (round_nearest_even (shr_m mrs') (loc_of_shr_record mrs'))
                e' loc_Exact ltac:(lia)) as H2.
  destruct (shr_fexp prec emax _ e' loc_Exact) as [mrs'' e''].
  cbn [fst] in H2.
  destruct (shr_m mrs'') as [|m|m]; try lia; [now left|].
  destruct (e'' <=? emax - prec); [right; left; now exists m, e'' | auto].
Qed.

(** A total of 0 or less divided by 1000 is not above 0.0. *)
Lemma float_div_nonpositive (total : Z) :
  total <= 0 ->
  float_lt (float_of_int 0)
           (float_div (int_operand total) (int_operand 1000)) = false.
Proof.
  intros H. destruct total as [|p|p]; try lia; [reflexivity|].
  unfold float_div, int_operand, SFdiv.
  assert (Hq : 0 <= fst (fst (SFdiv_core_binary prec emax (Z.pos p) 0 1000 0))).
  { unfold SFdiv_core_binary.
    set (e' := Z.min _ _).
    set (m' := match 0 - 0 - e' with
               | 0 => Z.pos p
               | Z.pos _ => _
               | Z.neg _ => 0
               end).
    assert (Hm' : 0 <= m').
    { subst m'. destruct (0 - 0 - e') as [|s|s]; try lia.
      apply Z.shiftl_nonneg. lia. }
    assert (Hq' : 0 <= m' / 1000) by (apply Z.div_pos; lia).
    unfold Z.div in Hq'. destruct (Z.div_eucl m' 1000) as [q r].
    exact Hq'. }
  destruct (SFdiv_core_binary prec emax (Z.pos p) 0 1000 0) as [[q e] l].
  cbn [fst xorb] in *.
  destruct (@binary_round_aux_signed true q e l Hq)
    as [-> | [(m & e1 & ->) | ->]]; reflexivity.
Qed.

(** *** No overflow for totals between [- 2 ^ 1014] and [2 ^ 1014] *)

Lemma SFdiv_core_binary_1000_bound (p : positive) :
  Z.pos p < 2 ^ 1014 ->
  exists s q l,
    SFdiv_core_binary prec emax (Z.pos p) 0 1000 0 = (q, - s, l) /\
    0 <= s /\ emin <= - s /\ 0 <= q < 2 ^ (1014 + s).
Proof.
  intros H. unfold SFdiv_core_binary.
  set (e' := Z.min _ _).
  assert (He' : emin <= e' <= 0).
  { subst e'. unfold fexp. fold emin. unfold emin, SpecFloat.emin, emax, prec.
    lia. }
  set (m' := match 0 - 0 - e' with
             | 0 => Z.pos p
             | Z.pos _ => _
             | Z.neg _ => 0
             end).
  assert (Hm' : 0 < m' < 2 ^ (1014 + - e')).
  { subst m'. destruct (0 - 0 - e') as [|s|s] eqn:Es; try lia.
    - replace (1014 + - e') with 1014 by lia. lia.
    - rewrite Z.shiftl_mul_pow2 by lia.
      replace (- e') with (Z.pos s) by lia.
      rewrite Z.pow_add_r by lia.
      assert (0 < 2 ^ Z.pos s) by (apply Z.pow_pos_nonneg; lia). nia. }
  assert (Hq : 0 <= m' / 1000 < 2 ^ (1014 + - e')).
  { split; [apply Z.div_pos; lia|].
    apply Z.div_lt_upper_bound; [lia|].
    assert (0 < 2 ^ (1014 + - e')) by (apply Z.pow_pos_nonneg; lia). lia. }
  unfold Z.div in Hq. destruct (Z.div_eucl m' 1000) as [q r].
  cbn [fst] in Hq. exists (- e'), q, (new_location 1000 r).
  rewrite Z.opp_involutive. split; [reflexivity|]. lia.
Qed.

Lemma shr_fexp_bounds_nonneg (m e : Z) (l : location) (D : Z) :
  0 <= m < 2 ^ D -> 0 <= D -> emin <= e ->
  let e1 := snd (shr_fexp prec emax m e l) in
  e <= e1 /\ e1 <= Z.max e (fexp prec emax (D + e)) /\
  D + e - e1 >= 0 /\
  shr_m (fst (shr_fexp prec emax m e l)) < 2 ^ (D + e - e1).
Proof.
  intros Hm HD He. destruct (Z.eq_dec m 0) as [->|Hm0].
  - cbv zeta. unfold shr_fexp, shr. cbn [Zdigits2].
    assert (Hprec : prec = 53) by reflexivity.
    assert (Hn : fexp prec emax (0 + e) - e <= 0)
      by (unfold fexp; lia).
    destruct (fexp prec emax (0 + e) - e) as [|n|n]; try lia;
      cbn [fst snd]; rewrite shr_record_of_loc_m;
      replace (D + e - e) with D by lia;
      (split; [lia | split; [lia | split; lia]]).
  - apply shr_fexp_bounds; [lia | exact HD | exact He].
Qed.

Lemma binary_round_aux_not_infinity (s : bool) (mx ex : Z) (lx : location)
    (D : Z) :
  0 <= mx < 2 ^ D -> 0 <= D -> emin <= ex ->
  Z.max ex (fexp prec emax (D + ex + 1)) <= emax - prec ->
  is_infinity (binary_round_aux prec emax s mx ex lx) = false.
Proof.
  intros Hm HD He Hbound. unfold binary_round_aux.
  pose proof (@shr_fexp_nonneg mx ex lx ltac:(lia)) as H1.
  destruct (@shr_fexp_bounds_nonneg mx ex lx D Hm HD He) as (B1 & B2 & B3 & B4).
  destruct (shr_fexp prec emax mx ex lx) as [mrs' e']. cbn [fst snd] in *.
  set (m2 := round_nearest_even (shr_m mrs') (loc_of_shr_record mrs')).
  assert (Hm2 : shr_m mrs' <= m2 <= shr_m mrs' + 1).
  { subst m2. unfold round_nearest_even.
    destruct (loc_of_shr_record mrs') as [|[]]; try lia.
    destruct (Z.even (shr_m mrs')); lia. }
  assert (Hm2' : 0 <= m2 < 2 ^ (D + ex - e' + 1)).
  { rewrite Z.pow_add_r by lia. change (2 ^ 1) with 2. lia. }
  destruct (@shr_fexp_bounds_nonneg m2 e' loc_Exact (D + ex - e' + 1) Hm2'
              ltac:(lia) ltac:(lia)) as (C1 & C2 & _ & _).
  destruct (shr_fexp prec emax m2 e' loc_Exact) as [mrs'' e''].
  cbn [fst snd] in *.
  replace (D + ex - e' + 1 + e') with (D + ex + 1) in C2 by lia.
  pose proof (@fexp_monotone (D + ex) (D + ex + 1) ltac:(lia)) as Hf.
  destruct (shr_m mrs'') as [|m|m]; try reflexivity.
  replace (e'' <=? emax - prec) with true
    by (symmetry; apply Z.leb_le; lia).
  reflexivity.
Qed.

Lemma float_div_1000_not_infinity (total : Z) :
  - 2 ^ 1014 < total < 2 ^ 1014 ->
  is_infinity (float_div (int_operand total) (int_operand 1000)) = false.
Proof.
  intros H.
  assert (Hp : forall (s : bool) (p : positive),
            Z.pos p < 2 ^ 1014 ->
            is_infinity (float_div (S754_finite s p 0) (int_operand 1000))
            = false).
  { intros s p Hlt. unfold float_div, int_operand, SFdiv.
    destruct (SFdiv_core_binary_1000_bound Hlt)
      as (e & q & l & -> & He & Hmin & Hq).
    apply binary_round_aux_not_infinity with (D := 1014 + e); try lia.
    replace (1014 + e + - e + 1) with 1015 by lia.
    unfold fexp, emin, SpecFloat.emin, emax, prec. lia. }
  destruct total as [|p|p]; [reflexivity | apply Hp; lia | apply Hp; lia].
Qed.

Section NonPositiveDice.

Variable DS : Type.

Implicit Types (dice : Dice DS) (w : World DS) (fuel : nat).

Lemma dice_calls_at_least dice (lowest : Z) n s :
  (forall s', lowest <= fst (dice s')) ->
  Forall (fun v => lowest <= v) (fst (dice_calls dice n s)).
Proof.
  intros Hl. revert s; induction n as [|n IH]; intros s; cbn [dice_calls].
  - constructor.
  - pose proof (Hl s) as Hv. destruct (dice s) as [v s1]. specialize (IH s1).
    destruct (dice_calls dice n s1) as [vs s2]. cbn in *. now constructor.
Qed.

(** A roll of dice with outcomes between [lowest] and 0 returns their
    sum, between [10 * lowest] and 0. *)
Lemma roll_dice_args_nonpositive dice (lowest : Z) roll w r w' :
  bounded_dice dice 0 -> (forall s, lowest <= fst (dice s)) ->
  1 <= roll <= 10 ->
  roll_dice_args 11 (roll, dice) w = Ret r w' ->
  10 * lowest <= r <= 0.
Proof.
  intros Hb Hl Hroll E. rewrite roll_dice_args_pair in E.
  rewrite roll_dice_spec in E by lia.
  pose proof (dice_calls_length dice (Z.to_nat roll) (rng w)) as Hlen.
  pose proof (@dice_calls_bounded _ dice 0 (Z.to_nat roll) (rng w) Hb) as Hup.
  pose proof (@dice_calls_at_least dice lowest (Z.to_nat roll) (rng w) Hl)
    as Hlow.
  destruct (dice_calls dice (Z.to_nat roll) (rng w)) as [outs s].
  cbn [fst] in *.
  assert (Hall : Forall (fun v => lowest <= v <= 0) outs).
  { rewrite Forall_forall in *. intros v Hv.
    specialize (Hup v Hv). specialize (Hlow v Hv). cbv beta in *. lia. }
  assert (Hno1 : existsb (Z.eqb 1) outs = false).
  { apply not_true_is_false. intros H.
    apply existsb_exists in H as (v & Hv & Hv1). apply Z.eqb_eq in Hv1.
    rewrite Forall_forall in Hup. specialize (Hup v Hv). cbv beta in Hup.
    lia. }
  rewrite Hno1 in E. injection E as <- _.
  pose proof (sum_list_between Hall) as Hs. rewrite Hlen in Hs.
  assert (lowest <= 0).
  { destruct outs as [|v outs']; [cbn in Hlen; lia|].
    inversion Hall; subst. lia. }
  nia.
Qed.

Lemma max_scoring_loop_nonpositive dice :
  bounded_dice dice 0 ->
  forall n roll fuel w,
    1 <= roll -> roll + Z.of_nat n = 11 -> (n + 1012 <= fuel)%nat ->
    (exists w',
        max_scoring_loop fuel dice roll 0 (float_of_int 0) w = Ret 0 w') \/
    (exists roll' rs w0 w1 w',
        1 <= roll' <= 10 /\
        samples (@roll_dice_args DS 11) (roll', dice) 1000 w0 rs w1 /\
        is_infinity (mean rs) = true /\
        max_scoring_loop fuel dice roll 0 (float_of_int 0) w
        = Raise OverflowError w').
Proof.
  intros Hb. induction n as [|n IH]; intros roll fuel w Hroll Hn Hfuel;
    (destruct fuel as [|fuel]; [lia|]).
  - left. exists w. cbn [max_scoring_loop].
    replace (roll <=? 10) with false by (symmetry; apply Z.leb_gt; lia).
    reflexivity.
  - rewrite max_scoring_loop_step by lia.
    assert (Hfn : forall fuel' w0, (11 <= fuel')%nat ->
              exists r w',
                roll_dice_args fuel' (roll, dice) w0 = Ret r w' /\
                roll_dice_args 11 (roll, dice) w0 = Ret r w').
    { intros fuel' w0 Hf.
      destruct (@roll_dice_args_effect _ dice roll fuel' w0 ltac:(lia) Hf)
        as (r & w' & E1 & E2 & _).
      now exists r, w'. }
    destruct (@make_averaged_1000 _ _ (@roll_dice_args DS) (roll, dice)
                11%nat fuel w Hfn ltac:(lia))
      as (rs & w1 & Hs & E & Hmean).
    destruct (@samples_roll_effect _ dice roll ltac:(lia) _ _ _ _ Hs)
      as (_ & _ & Hrs).
    pose proof (sum_list_upper (Hrs Hb)) as Hsum.
    pose proof (@float_div_nonpositive (sum_list rs) ltac:(lia)) as Hlt.
    unfold truediv in E. cbn [Z.eqb] in E. rewrite Hmean in *.
    destruct (is_infinity (mean rs)) eqn:Ei.
    + right. exists roll, rs, w, w1, w1.
      split; [lia|]. split; [exact Hs|]. split; [exact Ei|].
      apply bind_Raise. rewrite E. now destruct (mean rs).
    + assert (E' : make_averaged (@roll_dice_args DS) 1000 fuel (roll, dice) w
                   = Ret (mean rs) w1)
        by (rewrite E; now destruct (mean rs)).
      erewrite bind_Ret by exact E'.
      unfold bind at 1, print. unfold keep_higher. cbn [fst snd].
      rewrite Hlt. cbn [fst snd].
      destruct (IH (roll + 1) fuel
                   {| rng := rng w1; rolled := rolled w1;
                      printed := (roll, mean rs) :: printed w1 |}
                   ltac:(lia) ltac:(lia) ltac:(lia))
        as [H | (roll' & rs' & w0 & w2 & w' & H)]; [now left|].
      right. now exists roll', rs', w0, w2, w'.
Qed.

(** X15.  For a dice that never returns a positive outcome no average is
    above the initial [best_value] of 0, so [max_scoring_num_rolls]
    returns 0, which is not a roll count: the docstring's assumption of
    positive outcomes is needed.  (The only other behaviour is an
    [OverflowError] of the division, which needs an outcome below
    [- 2 ^ 1000].) *)
Theorem max_scoring_num_rolls_without_positive_outcomes dice fuel w :
  bounded_dice dice 0 -> (1022 <= fuel)%nat ->
  (exists w', max_scoring_num_rolls fuel dice w = Ret 0 w') \/
  (~ (forall s, - 2 ^ 1000 <= fst (dice s)) /\
   exists w', max_scoring_num_rolls fuel dice w = Raise OverflowError w').
Proof.
  intros Hb Hfuel. unfold max_scoring_num_rolls.
  destruct (@max_scoring_loop_nonpositive dice Hb 10%nat 1 fuel w
              ltac:(lia) ltac:(lia) ltac:(lia))
    as [H | (roll' & rs & w0 & w1 & w' & Hr & Hs & Hi & El)]; [now left|].
  right. split; [|now exists w'].
  intros Hl.
  assert (Hrs : Forall (fun r => 10 * - 2 ^ 1000 <= r <= 0) rs).
  { refine (@samples_Forall _ _ (@roll_dice_args DS 11) (roll', dice)
              (fun r => 10 * - 2 ^ 1000 <= r <= 0) _ _ _ _ _ Hs).
    intros w2 r w3 Er.
    exact (@roll_dice_args_nonpositive dice (- 2 ^ 1000) roll' w2 r w3
             Hb Hl Hr Er). }
  pose proof (sum_list_between Hrs) as Hsum.
  pose proof (samples_length Hs) as Hlen.
  unfold mean in Hi. rewrite Hlen in *.
  change (Z.of_nat 1000) with 1000 in *.
  rewrite float_div_1000_not_infinity in Hi; [discriminate|].
  assert (H14 : 2 ^ 1014 = 16384 * 2 ^ 1000).
  { replace 1014 with (14 + 1000) by lia. now rewrite Z.pow_add_r by lia. }
  assert (0 < 2 ^ 1000) by (apply Z.pow_pos_nonneg; lia).
  lia.
Qed.

End NonPositiveDice.

(** A dice that always shows 0: every average is 0.0 and the result is 0. *)
Example max_scoring_num_rolls_always_0 :
  let run :=
    max_scoring_num_rolls 1022 (make_test_dice [0])
      {| rng := 0%nat; rolled := []; printed := [] |} in
  returned run = Some 0 /\
  output run
  = map (fun roll => (roll, float_of_int 0)) [1; 2; 3; 4; 5; 6; 7; 8; 9; 10].
Proof. split; vm_compute; reflexivity. Qed.

Lemma make_test_dice_at_least (outcomes : list Z) (lowest : Z) :
  outcomes <> [] -> forallb (fun v => lowest <=? v) outcomes = true ->
  forall s, lowest <= fst (make_test_dice outcomes s).
Proof.
  intros Hne Hall s. cbn [make_test_dice fst].
  assert (Hin : In (nth (s mod List.length outcomes) outcomes 0) outcomes).
  { apply nth_In. apply Nat.mod_upper_bound.
    destruct outcomes; [congruence | discriminate]. }
  rewrite forallb_forall in Hall. now apply Z.leb_le, Hall.
Qed.

Lemma max_scoring_num_rolls_without_positive_outcomes_witness :
  let dice := make_test_dice [0; -2] in
  let w : World nat := {| rng := 0%nat; rolled := []; printed := [] |} in
  exists w', max_scoring_num_rolls 1022 dice w = Ret 0 w'.
Proof.
  intros dice w.
  destruct (@max_scoring_num_rolls_without_positive_outcomes nat dice 1022 w)
    as [H | [Hnl _]].
  - now apply make_test_dice_bounded.
  - lia.
  - exact H.
  - exfalso. apply Hnl.
    apply make_test_dice_at_least; [discriminate|]. vm_compute. reflexivity.
Defined.

(** ** An illegal roll count stops everything *)

Section IllegalRollCount.

Variable DS : Type.
Variable four_sided six_sided : Dice DS.

Implicit Types (dice : Dice DS) (w : World DS) (fuel : nat).

Lemma take_turn_rejects (v : value) :
  (forall n, v = VInt n -> n < 0 \/ 10 < n) ->
  exists msg,
    forall opponent_score dice fuel w,
      take_turn fuel v opponent_score dice w = Raise (AssertionError msg) w.
Proof.
  intros H. destruct v as [n| | | |];
    try (eexists; intros; reflexivity).
  destruct (H n eq_refl) as [Hn|Hn].
  - eexists. intros opp dice fuel w. unfold take_turn.
    replace (n >=? 0) with false
      by (symmetry; rewrite Z.geb_leb; apply Z.leb_gt; lia).
    reflexivity.
  - eexists. intros opp dice fuel w. unfold take_turn.
    replace (n >=? 0) with true by (symmetry; apply Z.geb_le; lia).
    replace (n <=? 10) with false by (symmetry; apply Z.leb_gt; lia).
    reflexivity.
Qed.

(** X16.  If the first player's strategy answers the opening position
    (0, 0) with something that is not an integer from 0 to 10, the
    [AssertionError] of [take_turn] ends [play] (for any positive goal),
    [winner] and [average_win_rate] alike, before any dice is rolled and
    before anything is printed: nothing on the way catches or corrects
    it. *)
Theorem illegal_roll_count_aborts strategy0 strategy1 fuel w :
  (forall n, strategy0 0 0 = VInt n -> n < 0 \/ 10 < n) ->
  exists msg,
    (forall goal, 0 < goal ->
       play four_sided six_sided (S fuel) strategy0 strategy1 goal w
       = Raise (AssertionError msg) w) /\
    winner four_sided six_sided (S fuel) strategy0 strategy1 w
    = Raise (AssertionError msg) w /\
    average_win_rate four_sided six_sided (S (S fuel)) strategy0 strategy1 w
    = Raise (AssertionError msg) w.
Proof.
  intros H. destruct (take_turn_rejects H) as (msg & Hmsg). exists msg.
  assert (Hplay : forall goal, 0 < goal ->
            play four_sided six_sided (S fuel) strategy0 strategy1 goal w
            = Raise (AssertionError msg) w).
  { intros goal Hgoal. rewrite play_unfold. apply bind_Raise.
    rewrite play_loop_step by lia. apply bind_Raise.
    change (0 =? 0) with true. cbv iota. apply Hmsg. }
  assert (Hwin : winner four_sided six_sided (S fuel) strategy0 strategy1 w
                 = Raise (AssertionError msg) w).
  { unfold winner. apply bind_Raise. apply Hplay. unfold GOAL_SCORE. lia. }
  split; [exact Hplay|]. split; [exact Hwin|].
  unfold average_win_rate. apply bind_Raise.
  unfold make_averaged. apply bind_Raise.
  cbn [average_loop]. change (0 <? 1000) with true. cbv iota.
  apply bind_Raise. rewrite winner_args_pair. exact Hwin.
Qed.

End IllegalRollCount.

(** * Instances of the further properties *)

Lemma first_dice_bounded (d : Dice nat) (bound : Z) :
  bounded_dice d bound -> bounded_dice (first_dice d) bound.
Proof.
  intros H s. unfold first_dice. specialize (H (fst s)).
  now destruct (d (fst s)).
Qed.

Lemma second_dice_bounded (d : Dice nat) (bound : Z) :
  bounded_dice d bound -> bounded_dice (second_dice d) bound.
Proof.
  intros H s. unfold second_dice. specialize (H (snd s)).
  now destruct (d (snd s)).
Qed.

Lemma test_four_sided_bounded : bounded_dice test_four_sided 6.
Proof. now apply first_dice_bounded, make_test_dice_bounded. Qed.

Lemma test_six_sided_bounded : bounded_dice test_six_sided 6.
Proof. now apply second_dice_bounded, make_test_dice_bounded. Qed.

Lemma select_dice_by_total_witness :
  select_dice test_four_sided test_six_sided 3 4
  = select_dice test_four_sided test_six_sided 10 4 /\
  select_dice test_four_sided test_six_sided 3 4
  = select_dice test_four_sided test_six_sided 4 3.
Proof.
  apply (@select_dice_by_total _ test_four_sided test_six_sided 3 4 10 4).
  reflexivity.
Defined.

Lemma play_one_final_score_reaches_goal_witness :
  play test_four_sided test_six_sided 1 final_strategy (always_roll (VInt 5))
       (-5) initial_world = Ret (0, 0) initial_world /\
  ((100 <= 17 /\ 112 < 100) \/ (100 <= 112 /\ 17 < 100)) /\ 17 <> 112.
Proof.
  destruct (@play_one_final_score_reaches_goal _ test_four_sided
              test_six_sided final_strategy (always_roll (VInt 5)) (-5))
    as [Hneg _].
  destruct (@play_one_final_score_reaches_goal _ test_four_sided
              test_six_sided final_strategy (always_roll (VInt 5)) 100)
    as [_ Hpos].
  split.
  - apply Hneg. lia.
  - eassert (E : play test_four_sided test_six_sided 300 final_strategy
                      (always_roll (VInt 5)) 100 initial_world
                 = Ret (17, 112) _) by (vm_compute; reflexivity).
    exact (Hpos ltac:(lia) _ _ _ _ _ E).
Defined.

Lemma winner_is_the_player_at_100_witness :
  exists score0 score1 w',
    play test_four_sided test_six_sided 300 final_strategy
         (always_roll (VInt 5)) GOAL_SCORE initial_world
    = Ret (score0, score1) w' /\
    (1 = 0 <-> 100 <= score0) /\
    (1 = 1 <-> 100 <= score1) /\
    score0 <> score1.
Proof.
  eassert (E : winner test_four_sided test_six_sided 300 final_strategy
                      (always_roll (VInt 5)) initial_world
               = Ret 1 _) by (vm_compute; reflexivity).
  destruct (winner_is_the_player_at_100 _ _ _ _ _ _ E) as (a & b & H).
  exists a, b. eexists. exact H.
Defined.

Lemma roll_dice_range_witness :
  exists r w',
    roll_dice 5 (VInt 4) test_six_sided initial_world = Ret r w' /\
    (r = 1 \/ 2 * 4 <= r <= 4 * 6).
Proof.
  apply (@roll_dice_range _ test_six_sided 6 4 5%nat initial_world).
  - exact test_six_sided_positive.
  - exact test_six_sided_bounded.
  - lia.
  - cbn. lia.
Defined.

Lemma play_final_scores_range_witness :
  exists final_score0 final_score1 w',
    play test_four_sided test_six_sided 212 final_strategy
         (always_roll (VInt 5)) 100 initial_world
    = Ret (final_score0, final_score1) w' /\
    0 <= Z.min final_score0 final_score1 < 100 /\
    100 <= Z.max final_score0 final_score1 <= 100 - 1 + Z.max 10 (10 * 6).
Proof.
  apply (@play_final_scores_range _ test_four_sided test_six_sided
           final_strategy (always_roll (VInt 5)) 100 6 212 initial_world).
  - exact final_strategy_valid.
  - apply always_roll_valid. lia.
  - exact test_four_sided_positive.
  - exact test_six_sided_positive.
  - exact test_four_sided_bounded.
  - exact test_six_sided_bounded.
  - lia.
  - cbn. lia.
Defined.



Lemma swap_strategy_seeks_good_swaps_witness :
  swap_strategy 8 5 7 20 = VInt 0 /\
  take_turn 0 (swap_strategy 8 5 7 20) 20 test_six_sided initial_world
  = Ret 3 initial_world /\
  swap_rule (7 + 3) 20 = (20, 7 + 3) /\
  20 = 2 * (7 + 3).
Proof.
  pose proof (@swap_strategy_seeks_good_swaps _ 8 5 7 20 test_six_sided
                0%nat initial_world ltac:(lia) ltac:(lia)) as H.
  cbv zeta in H. destruct H as (H & _ & _).
  apply H. reflexivity.
Defined.

Lemma final_strategy_choices_witness :
  final_strategy 95 20 = VInt 0 /\
  final_strategy 50 50 = VInt 4 /\
  final_strategy 10 70 = VInt 10.
Proof.
  destruct (final_strategy_choices 95 20) as (_ & H95 & _ & _).
  destruct (final_strategy_choices 50 50) as (_ & _ & H50 & _).
  destruct (final_strategy_choices 10 70) as (_ & _ & _ & H10).
  refine (conj _ (conj _ _)).
  - apply H95. lia.
  - apply H50; lia.
  - apply H10; lia.
Defined.

Lemma illegal_roll_count_aborts_witness :
  exists msg,
    (forall goal, 0 < goal ->
       play test_four_sided test_six_sided 1 (always_roll (VInt 11))
            final_strategy goal initial_world
       = Raise (AssertionError msg) initial_world) /\
    winner test_four_sided test_six_sided 1 (always_roll (VInt 11))
           final_strategy initial_world
    = Raise (AssertionError msg) initial_world /\
    average_win_rate test_four_sided test_six_sided 2
                     (always_roll (VInt 11)) final_strategy initial_world
    = Raise (AssertionError msg) initial_world.
Proof.
  apply (@illegal_roll_count_aborts _ test_four_sided test_six_sided
           (always_roll (VInt 11)) final_strategy 0%nat initial_world).
  intros n Hn. injection Hn as <-. lia.
Defined.
